(** * telegram2zinde: migration of an exported chat history into on-chain notes

    A shallow embedding of [src/common/contract.ts] (and of its later revision
    with a [photos] list and a channel name) and of the run loop, the list
    loader and the toggle handler of [src/pages/Migrate.tsx].

    JavaScript values are modelled as follows.
    - [number] identifiers and sizes are [Z]; [string] is [string].
    - An optional field [f?: T] is [option T]; a string used as a condition is
      truthy when present and non-empty ([truthy]).
    - A thrown value is an [Error] carrying its [message]; a computation is a
      function from the program state to a result and a new state ([M]).
    - The external collaborators ([fetch], the storage client, the chain
      client, the wallet library, [Date]) are the fields of the class
      [Collaborators]: functions over an abstract [World].
    - The state carries a ghost [trace] of the calls that cross a module
      boundary and may have an effect (collaborators, [signerPostNote] from
      the run loop, [setProgress], [setMessages], [nav]); the source keeps no
      such log, it only serves to state which calls a run makes and in which
      order.
    - The run is sequential: a handler runs to its end before another starts.

    Left out: [console.log], the JSX of the page, and the functions of
    [contract.ts] no property here is about ([setContractCharacterHandle],
    [generateRandomPrivateKey], [getSignerBalance]). *)

From Stdlib Require Import ZArith Ascii String.
From stdpp Require Import base list strings pretty.

Local Open Scope Z_scope.

(** ** JavaScript helpers *)

(** [!!s] for an optional string: present and non-empty. *)
Definition truthy (s : option string) : option string :=
  match s with
  | Some EmptyString => None
  | other => other
  end.

(** [a || b] on an optional string. *)
Definition orElse (a : option string) (b : string) : string :=
  match truthy a with
  | Some s => s
  | None => b
  end.

(** [`${x}`] for an optional string: [undefined] prints as its name. *)
Definition interpolate (x : option string) : string := default "undefined" x.

(** [s.split("/").pop()]: what follows the last slash. *)
Fixpoint splitPop (s cur : string) : string :=
  match s with
  | EmptyString => cur
  | String c rest =>
      if Ascii.eqb c "/" then splitPop rest "" else splitPop rest (cur +:+ String c "")
  end.

(** [haystack.includes(needle)] on strings. *)
Fixpoint includesStr (needle haystack : string) : bool :=
  String.prefix needle haystack
  || match haystack with
     | EmptyString => false
     | String _ rest => includesStr needle rest
     end.

(** [xs.includes(x)] on an array of numbers. *)
Definition includes (x : Z) (xs : list Z) : bool := existsb (Z.eqb x) xs.

(** Number to string, for the integers that identifiers are. *)
Definition numberToString (n : Z) : string := pretty n.

(** ** Data model of [contract.ts] *)

Record Error := mkError { message : string }.

Definition result (A : Type) : Type := Error + A.

Module TextEntity.
Record t := mk {
  type : string;  (* plain / bold / spoiler / italic / strikethrough / link / text_link *)
  text : string;
  href : option string
}.
End TextEntity.

Module Photo.
Record t := mk {
  photo : option string;
  width : option Z;
  height : option Z
}.
End Photo.

(** The message of the export.  The two revisions of [contract.ts] differ in
    one field: the earlier has [photo?: string], the later [photos?: Photo[]];
    the record has both, each revision reads its own. *)
Module MessageData.
Record t := mk {
  id : Z;
  type : string;  (* service / message *)
  date : string;
  action : option string;
  photo : option string;
  photos : option (list Photo.t);
  file : option string;
  mime_type : option string;
  width : option Z;
  height : option Z;
  text_entities : list TextEntity.t
}.
End MessageData.

Record Blob := mkBlob { blob_type : string; blob_size : Z; blob_bytes : string }.

Module Attachment.
Record t := mk {
  name : string;
  address : string;
  mime_type : string;
  size_in_bytes : Z;
  alt : string;
  width : option Z;
  height : option Z
}.
End Attachment.

Module NoteMetadata.
Record t := mk {
  type : string;
  sources : list string;
  content : string;
  attachments : list Attachment.t;
  date_published : option string;
  external_urls : option (list string)
}.
End NoteMetadata.

(** ** Text Formatter *)

(** The [switch] of [ParseMessageText]: what one entity adds to [content]. *)
Definition entityMarkup (entity : TextEntity.t) : string :=
  let text := TextEntity.text entity in
  let type := TextEntity.type entity in
  if String.eqb type "bold" then "**" +:+ text +:+ "**"
  else if String.eqb type "italic" then "*" +:+ text +:+ "*"
  else if String.eqb type "strikethrough" then "~~" +:+ text +:+ "~~"
  else if String.eqb type "link" then "[" +:+ text +:+ "](" +:+ text +:+ ")"
  else if String.eqb type "text_link" then
    "[" +:+ text +:+ "](" +:+ interpolate (TextEntity.href entity) +:+ ")"
  else text.

Definition ParseMessageText (message : MessageData.t) : string :=
  if String.eqb (MessageData.type message) "service" then
    orElse (MessageData.action message) ""
  else
    fold_left (fun content entity => content +:+ entityMarkup entity)
      (MessageData.text_entities message) "".

(** ** Data model of [Migrate.tsx] and of the session store *)

Module messagesPendingMigration.
Record t := mk {
  message : MessageData.t;  (* Original message data *)
  isToMigrate : bool;       (* Let user select this *)
  isPendingMigrate : bool;  (* Status *)
  isMigrated : bool
}.
End messagesPendingMigration.
Module MPM := messagesPendingMigration.

(** Modelled from the spec: the module [@/common/session] is missing.  The
    spec gives the Progress Record as [{finishedIDs: [identifier...], ...other
    settings}], read via [getProgress()] and written via [setProgress(record)],
    and a setting "include service messages".  [otherFields] stands for the
    fields the run loop copies with its spread and never reads. *)
Record Progress := mkProgress {
  finishedIDs : list Z;
  otherFields : list (string * string)
}.

Record Setting := mkSetting { includeService : bool }.

(** ** The ghost trace *)

Inductive Call :=
| CFetch (url : string)
| CBlob
| CJson
| CUploadFile (blob : Blob)
| CUploadJson (note : NoteMetadata.t)
| CPostNote (characterId : Z) (uri : string)
| CNewWallet
| CNewContract
| CConnect
| CGetPermissions
| CGrantPermissions (permissions : list string).

Inductive Event :=
| EExternal (c : Call) (failure : option Error)
| ESignerPostNote (m : MessageData.t)
| ESetProgress (p : Progress)
| ESetMessages (l : list MPM.t)
| ENavigate (path : string).

Definition failureOf {A} (r : result A) : option Error :=
  match r with
  | inl e => Some e
  | inr _ => None
  end.

(** ** External collaborators *)

Class Collaborators := {
  World : Type;
  Response : Type;
  Provider : Type;
  Contract : Type;
  (* fetch(url) and the readers of a response *)
  fetchUrl : string -> World -> result Response * World;
  responseBlob : Response -> World -> result Blob * World;
  responseMessages : Response -> World -> result (list MessageData.t) * World;
  responseOwner : Response -> World -> result (option string) * World;
  (* ./ipfs *)
  uploadFile : Blob -> World -> result string * World;
  uploadJson : NoteMetadata.t -> World -> result string * World;
  (* ethers and crossbell.js *)
  newWallet : string -> World -> result string * World;
  windowEthereum : World -> Provider;
  newContract : string + Provider -> World -> result Contract * World;
  connect : Contract -> World -> result unit * World;
  postNote : Contract -> Z -> string -> World -> result unit * World;
  getOperatorPermissionsForCharacter :
    Contract -> Z -> string -> World -> result (list string) * World;
  grantOperatorPermissionsForCharacter :
    Contract -> Z -> string -> list string -> World -> result unit * World;
  (* built-ins *)
  toISOString : string -> result string;
  toLowerCase : string -> string
}.

Section Model.
Context `{C : Collaborators}.

(** ** Program state *)

(** The module variables of [contract.ts]. *)
Record ContractVars := mkContractVars {
  gContract : option Contract;
  signerAddress : string;
  characterId : Z
}.

Record Session := mkSession { progress : Progress; setting : Setting }.

(** The React state of the [Migrate] component and the router location. *)
Record Ui := mkUi {
  isLoading : bool;
  loadingMessage : string;
  isShowingError : bool;
  errorMessage : string;
  messages : list MPM.t;
  location : string
}.

Record State := mkState {
  world : World;
  vars : ContractVars;
  session : Session;
  ui : Ui;
  trace : list Event
}.

Definition withWorld (w : World) (st : State) : State :=
  mkState w (vars st) (session st) (ui st) (trace st).
Definition withVars (v : ContractVars) (st : State) : State :=
  mkState (world st) v (session st) (ui st) (trace st).
Definition withSession (s : Session) (st : State) : State :=
  mkState (world st) (vars st) s (ui st) (trace st).
Definition withUi (u : Ui) (st : State) : State :=
  mkState (world st) (vars st) (session st) u (trace st).
Definition withTrace (t : list Event) (st : State) : State :=
  mkState (world st) (vars st) (session st) (ui st) t.

(** ** The monad of computations: state and exceptions *)

Definition M (A : Type) : Type := State -> result A * State.

Definition ret {A} (a : A) : M A := fun st => (inr a, st).

Definition bind {A B} (m : M A) (f : A -> M B) : M B :=
  fun st =>
    match m st with
    | (inl e, st') => (inl e, st')
    | (inr a, st') => f a st'
    end.

Definition throw {A} (e : Error) : M A := fun st => (inl e, st).

(** [try { body } catch (e) { handler e }] *)
Definition tryCatch {A} (body : M A) (handler : Error -> M A) : M A :=
  fun st =>
    match body st with
    | (inl e, st') => handler e st'
    | ok => ok
    end.

Definition gets {A} (f : State -> A) : M A := fun st => (inr (f st), st).
Definition modify (f : State -> State) : M unit := fun st => (inr tt, f st).
Definition log (e : Event) : M unit := modify (fun st => withTrace (trace st ++ [e]) st).

(** A call to a collaborator: it acts on the world, and is logged. *)
Definition external {A} (c : Call) (op : World -> result A * World) : M A :=
  fun st =>
    let (r, w) := op (world st) in
    (r, withTrace (trace st ++ [EExternal c (failureOf r)]) (withWorld w st)).

(** A built-in that may throw. *)
Definition liftResult {A} (r : result A) : M A := fun st => (r, st).

End Model.

Declare Scope js_scope.
Delimit Scope js_scope with js.
Notation "x <- m ;; k" := (bind m (fun x => k))
  (at level 100, m at next level, right associativity) : js_scope.
Notation "m ;; k" := (bind m (fun _ => k))
  (at level 100, right associativity) : js_scope.
Local Open Scope js_scope.

(** ** [contract.ts]: what its two revisions have in common *)

Section ContractCommon.
Context `{C : Collaborators}.

Definition setGContract (g : option Contract) : M unit :=
  modify (fun st => withVars (mkContractVars g (signerAddress (vars st)) (characterId (vars st))) st).
Definition setSignerAddress (a : string) : M unit :=
  modify (fun st => withVars (mkContractVars (gContract (vars st)) a (characterId (vars st))) st).

Definition notInitialized : Error := mkError "Contract not initialized.".

(** The check every exported function starts with:
    [if (gContract === null) throw new Error("Contract not initialized.")].
    The body then uses the contract found here; nothing can reassign
    [gContract] while one of these functions runs. *)
Definition requireContract : M Contract :=
  g <- gets (fun st => gContract (vars st));;
  match g with
  | None => throw notInitialized
  | Some c => ret c
  end.

Definition initWithPrivateKey (privateKey : string) : M unit :=
  if String.eqb privateKey "" then throw (mkError "No private key provided")
  else
    let privateKey :=
      if String.prefix "0x" privateKey then privateKey else "0x" +:+ privateKey in
    tryCatch
      ((* Initialize wallet address *)
       address <- external CNewWallet (newWallet privateKey);;
       setSignerAddress address;;
       (* Initialize contract instance *)
       c <- external CNewContract (newContract (inl privateKey));;
       setGContract (Some c);;
       external CConnect (connect c))
      (fun e =>
         setGContract None;;
         setSignerAddress "";;
         throw e).

Definition getMetamaskProvider : M Contract :=
  provider <- gets (fun st => windowEthereum (world st));;
  uContract <- external CNewContract (newContract (inr provider));;
  external CConnect (connect uContract);;
  ret uContract.

Definition getSignerAddress : M string :=
  requireContract;;
  gets (fun st => signerAddress (vars st)).

Definition checkOperator : M bool :=
  c <- requireContract;;
  cid <- gets (fun st => characterId (vars st));;
  addr <- gets (fun st => signerAddress (vars st));;
  (* Check if is owner *)
  let url := "https://indexer.crossbell.io/v1/characters/" +:+ numberToString cid in
  res <- external (CFetch url) (fetchUrl url);;
  owner <- external CJson (responseOwner res);;
  let isOwner :=
    match owner with
    | Some o => String.eqb (toLowerCase addr) (toLowerCase o)
    | None => false
    end in
  if isOwner then ret true
  else
    (* Otherwise need operator authorization *)
    permissions <- external CGetPermissions (getOperatorPermissionsForCharacter c cid addr);;
    ret (existsb (String.eqb "POST_NOTE") permissions).

Definition grantWithMetamask (permissions : list string) : M unit :=
  requireContract;;
  uProvider <- getMetamaskProvider;;
  cid <- gets (fun st => characterId (vars st));;
  addr <- gets (fun st => signerAddress (vars st));;
  external (CGrantPermissions permissions)
    (grantOperatorPermissionsForCharacter uProvider cid addr permissions).

Definition addOperator : M unit := grantWithMetamask ["POST_NOTE"%string].

Definition removeOperator : M unit := grantWithMetamask [].

(** The four statements both revisions repeat for each media address:
    the file name, [fetch], [blob()], [uploadFile], and the record pushed. *)
Definition uploadMedia (url : string) (declaredType : option string)
    (width height : option Z) : M Attachment.t :=
  let mediaFileName := splitPop url "" in
  result <- external (CFetch url) (fetchUrl url);;
  blob <- external CBlob (responseBlob result);;
  ipfsUri <- external (CUploadFile blob) (uploadFile blob);;
  ret (Attachment.mk mediaFileName ipfsUri (orElse declaredType (blob_type blob))
         (blob_size blob) mediaFileName width height).

(** [if (!!message.file) { ... mediaAttachments.push(...) }] *)
Definition uploadFileAttachment (message : MessageData.t)
    (mediaAttachments : list Attachment.t) : M (list Attachment.t) :=
  match truthy (MessageData.file message) with
  | Some file =>
      a <- uploadMedia file (MessageData.mime_type message)
             (MessageData.width message) (MessageData.height message);;
      ret (mediaAttachments ++ [a])
  | None => ret mediaAttachments
  end.

End ContractCommon.

(** ** [src/common/contract.ts]: the revision [Migrate.tsx] imports *)

Module contract.
Section Def.
Context `{C : Collaborators}.

Definition signerPostNote (message : MessageData.t) : M unit :=
  c <- requireContract;;
  (* Upload medias to IPFS *)
  mediaAttachments <-
    match truthy (MessageData.photo message) with
    | Some photo =>
        a <- uploadMedia photo None (MessageData.width message) (MessageData.height message);;
        ret [a]
    | None => ret []
    end;;
  mediaAttachments <- uploadFileAttachment message mediaAttachments;;
  (* Upload note *)
  let note :=
    NoteMetadata.mk "note" ["T2C"; "Telegram"]%string (ParseMessageText message)
      mediaAttachments None None in
  noteIPFSUri <- external (CUploadJson note) (uploadJson note);;
  (* Push on chain *)
  cid <- gets (fun st => characterId (vars st));;
  external (CPostNote cid noteIPFSUri) (postNote c cid noteIPFSUri).

End Def.
End contract.

(** ** The later revision of [contract.ts]: a list of photos, a channel name *)

Module part_000.
Section Def.
Context `{C : Collaborators}.

(** [for (const photo of message.photos) { if (!photo.photo) break; ... }] *)
Fixpoint uploadPhotos (photos : list Photo.t) (mediaAttachments : list Attachment.t)
    : M (list Attachment.t) :=
  match photos with
  | [] => ret mediaAttachments
  | photo :: rest =>
      match truthy (Photo.photo photo) with
      | None => ret mediaAttachments
      | Some url =>
          a <- uploadMedia url None (Photo.width photo) (Photo.height photo);;
          uploadPhotos rest (mediaAttachments ++ [a])
      end
  end.

Definition signerPostNote (message : MessageData.t) (channelName : string) : M unit :=
  c <- requireContract;;
  (* Upload medias to IPFS *)
  mediaAttachments <-
    match MessageData.photos message with
    | Some photos => uploadPhotos photos []
    | None => ret []
    end;;
  mediaAttachments <- uploadFileAttachment message mediaAttachments;;
  (* Upload note *)
  date_published <- liftResult (toISOString (MessageData.date message));;
  let note :=
    NoteMetadata.mk "note" ["T2C"; "Telegram"]%string (ParseMessageText message)
      mediaAttachments (Some date_published)
      (Some (if String.eqb channelName "" then []
             else ["https://t.me/" +:+ channelName +:+ "/"
                     +:+ numberToString (MessageData.id message)])) in
  noteIPFSUri <- external (CUploadJson note) (uploadJson note);;
  (* Push on chain *)
  cid <- gets (fun st => characterId (vars st));;
  external (CPostNote cid noteIPFSUri) (postNote c cid noteIPFSUri).

End Def.
End part_000.

(** ** [src/pages/Migrate.tsx] *)

Section Migrate.
Context `{C : Collaborators}.

(** Modelled from the spec: [getProgress], [setProgress] and [getSetting] of
    the missing [@/common/session]: a read, a write and a read of the store. *)
Definition getProgress : M Progress := gets (fun st => progress (session st)).
Definition setProgress (p : Progress) : M unit :=
  log (ESetProgress p);;
  modify (fun st => withSession (mkSession p (setting (session st))) st).
Definition getSetting : M Setting := gets (fun st => setting (session st)).

(** The setters of the component's [useState] hooks, and [nav]. *)
Definition setLoading (b : bool) : M unit :=
  modify (fun st => let u := ui st in
    withUi (mkUi b (loadingMessage u) (isShowingError u) (errorMessage u) (messages u) (location u)) st).
Definition setLoadingMessage (s : string) : M unit :=
  modify (fun st => let u := ui st in
    withUi (mkUi (isLoading u) s (isShowingError u) (errorMessage u) (messages u) (location u)) st).
Definition setShowingError (b : bool) : M unit :=
  modify (fun st => let u := ui st in
    withUi (mkUi (isLoading u) (loadingMessage u) b (errorMessage u) (messages u) (location u)) st).
Definition setErrorMessage (s : string) : M unit :=
  modify (fun st => let u := ui st in
    withUi (mkUi (isLoading u) (loadingMessage u) (isShowingError u) s (messages u) (location u)) st).
Definition setMessages (l : list MPM.t) : M unit :=
  log (ESetMessages l);;
  modify (fun st => let u := ui st in
    withUi (mkUi (isLoading u) (loadingMessage u) (isShowingError u) (errorMessage u) l (location u)) st).
Definition nav (path : string) : M unit :=
  log (ENavigate path);;
  modify (fun st => let u := ui st in
    withUi (mkUi (isLoading u) (loadingMessage u) (isShowingError u) (errorMessage u) (messages u) path) st).

(** [xs.slice(start, end)] for indices within the array. *)
Definition slice {A} (start end_ : nat) (xs : list A) : list A :=
  drop start (take end_ xs).

(** [messages.slice(0, index).concat([x]).concat(messages.slice(index + 1, messages.length))] *)
Definition replaceAt (messages : list MPM.t) (index : nat) (x : MPM.t) : list MPM.t :=
  slice 0 index messages ++ [x] ++ slice (index + 1) (length messages) messages.

(** The callback of [results.messages.map] in [loadMessages]. *)
Definition parseMessage (currentProgress : Progress) (settings : Setting)
    (msg : MessageData.t) : MPM.t :=
  let isService := String.eqb (MessageData.type msg) "service" in
  let isMigrated := includes (MessageData.id msg) (finishedIDs currentProgress) in
  MPM.mk msg (negb isMigrated && (includeService settings || negb isService)) false isMigrated.

Definition loadMessages : M unit :=
  setLoadingMessage "Loading messages...";;
  setLoading true;;
  (* Get settings *)
  settings <- getSetting;;
  tryCatch
    ((* Load file *)
     res <- external (CFetch "result.json") (fetchUrl "result.json");;
     results <- external CJson (responseMessages res);;
     currentProgress <- getProgress;;
     let parsedMessages := map (parseMessage currentProgress settings) results in
     setMessages parsedMessages)
    (fun e =>
       setErrorMessage (message e);;
       setShowingError true);;
  setLoading false.

(** The [onClick] of the list item at [index]; the render creates one for each
    element of [messages], hence none for an index outside the list. *)
Definition toggleItem (index : nat) : M unit :=
  messages <- gets (fun st => messages (ui st));;
  match messages !! index with
  | Some wrappedMessage =>
      setMessages
        (replaceAt messages index
           (MPM.mk (MPM.message wrappedMessage) (negb (MPM.isToMigrate wrappedMessage))
              (MPM.isPendingMigrate wrappedMessage) (MPM.isMigrated wrappedMessage)))
  | None => ret tt
  end.

Definition markPending (w : MPM.t) : MPM.t :=
  MPM.mk (MPM.message w) (MPM.isToMigrate w) true (MPM.isMigrated w).
Definition markMigrated (w : MPM.t) : MPM.t :=
  MPM.mk (MPM.message w) (MPM.isToMigrate w) false true.

(** The message shown while the candidate at [index] is processed. *)
Definition processingText (messages : list MPM.t) (index : nat) : string :=
  "Processing " +:+ numberToString (Z.of_nat index) +:+ " of "
    +:+ numberToString (Z.of_nat (length messages)) +:+ " notes...".

(** The body of the [for] loop of the start button.  [messages] is the list
    the handler closed over when it was rendered: the calls of [setMessages]
    during the run do not change it. *)
Definition processMessage (messages : list MPM.t) (index : nat) : M unit :=
  setLoadingMessage (processingText messages index);;
  match messages !! index with
  | None =>
      (* not reached, [index < messages.length]: reading a field of [undefined] *)
      throw (mkError "Cannot read properties of undefined (reading 'isToMigrate')")
  | Some wrappedMessage =>
      if MPM.isToMigrate wrappedMessage then
        setMessages (replaceAt messages index (markPending wrappedMessage));;
        log (ESignerPostNote (MPM.message wrappedMessage));;
        contract.signerPostNote (MPM.message wrappedMessage);;
        progress <- getProgress;;
        setProgress
          (mkProgress (finishedIDs progress ++ [MessageData.id (MPM.message wrappedMessage)])
             (otherFields progress));;
        setMessages (replaceAt messages index (markMigrated wrappedMessage))
      else ret tt
  end.

(** [for (let index = ...; index < messages.length; index++) body(index)],
    with [remaining = messages.length - index]. *)
Fixpoint forLoop (body : nat -> M unit) (index remaining : nat) : M unit :=
  match remaining with
  | O => ret tt
  | S remaining' => body index;; forLoop body (S index) remaining'
  end.

(** The statements of the start button's [onClick] before its [try]. *)
Definition runEntry : M unit :=
  setLoading true;;
  setLoadingMessage "Initializing basic information...";;
  current <- getProgress;;
  setProgress (mkProgress [] (otherFields current)).

(** The [catch] of the start button's [onClick]. *)
Definition showError (e : Error) : M unit :=
  setErrorMessage (message e);;
  setShowingError true.

(** The [onClick] of the start button. *)
Definition startProcessing : M unit :=
  messages <- gets (fun st => messages (ui st));;
  runEntry;;
  tryCatch
    (forLoop (processMessage messages) 0 (length messages);;
     nav "/finish")
    showError;;
  setLoading false.

(** The state in which the loop body calls [signerPostNote] for the selected
    candidate [w] at [index], and the state it leaves when the call returned
    in [st]. *)
Definition publishState (messages : list MPM.t) (index : nat) (w : MPM.t) (st : State) : State :=
  snd ((setLoadingMessage (processingText messages index);;
        setMessages (replaceAt messages index (markPending w));;
        log (ESignerPostNote (MPM.message w))) st).

Definition recordSuccess (messages : list MPM.t) (index : nat) (w : MPM.t) (st : State) : State :=
  snd ((progress <- getProgress;;
        setProgress
          (mkProgress (finishedIDs progress ++ [MessageData.id (MPM.message w)])
             (otherFields progress));;
        setMessages (replaceAt messages index (markMigrated w))) st).

(** The state with another completed set in its Progress Record. *)
Definition withFinishedIDs (ids : list Z) (st : State) : State :=
  withSession
    (mkSession (mkProgress ids (otherFields (progress (session st)))) (setting (session st))) st.

End Migrate.

Arguments publishState : simpl never.
Arguments recordSuccess : simpl never.
Arguments runEntry : simpl never.

(** ** What the properties observe *)

(** The spans of a message, formatted one by one and joined in input order. *)
Definition joinMarkup (spans : list TextEntity.t) : string :=
  foldr String.append "" (map entityMarkup spans).

(** The messages handed to [signerPostNote], in call order. *)
Fixpoint publishCalls (t : list Event) : list MessageData.t :=
  match t with
  | [] => []
  | ESignerPostNote m :: t' => m :: publishCalls t'
  | _ :: t' => publishCalls t'
  end.

(** The lists handed to [setMessages], in call order. *)
Fixpoint setMessagesCalls (t : list Event) : list (list MPM.t) :=
  match t with
  | [] => []
  | ESetMessages l :: t' => l :: setMessagesCalls t'
  | _ :: t' => setMessagesCalls t'
  end.

(** The records handed to [setProgress], in call order. *)
Fixpoint setProgressCalls (t : list Event) : list Progress :=
  match t with
  | [] => []
  | ESetProgress p :: t' => p :: setProgressCalls t'
  | _ :: t' => setProgressCalls t'
  end.

Definition isPostNote (e : Event) : bool :=
  match e with
  | EExternal (CPostNote _ _) _ => true
  | _ => false
  end.

(** A media retrieval, a media upload or the persistence of the note document
    that failed. *)
Definition isTransferFailure (e : Event) : bool :=
  match e with
  | EExternal (CFetch _) (Some _) => true
  | EExternal CBlob (Some _) => true
  | EExternal (CUploadFile _) (Some _) => true
  | EExternal (CUploadJson _) (Some _) => true
  | _ => false
  end.

Definition isFailure (e : Event) : bool :=
  match e with
  | EExternal _ (Some _) => true
  | _ => false
  end.

Definition isExternal (e : Event) : bool :=
  match e with
  | EExternal _ _ => true
  | _ => false
  end.

(** Migration-complete implies not migration-in-progress. *)
Definition completeNotPending (c : MPM.t) : bool :=
  implb (MPM.isMigrated c) (negb (MPM.isPendingMigrate c)).

(** The candidates of a list that are selected. *)
Definition selected (l : list MPM.t) : list MPM.t := filter (fun c => MPM.isToMigrate c = true) l.

(** A list a run may hand to [setMessages]: the list [l] the handler closed
    over, with one selected candidate marked pending or marked migrated. *)
Definition runUpdate (l l' : list MPM.t) : Prop :=
  exists j w, l !! j = Some w /\ MPM.isToMigrate w = true
              /\ (l' = replaceAt l j (markPending w) \/ l' = replaceAt l j (markMigrated w)).

Definition succeeded {A} (r : result A) : bool :=
  match r with
  | inr _ => true
  | inl _ => false
  end.

(** The record the photos loop pushes for a photo reference: named after the
    last segment of the address, with the width and height of the reference. *)
Definition recordOf (photo : Photo.t) (a : Attachment.t) : Prop :=
  (exists url, truthy (Photo.photo photo) = Some url
               /\ Attachment.name a = splitPop url ""
               /\ Attachment.alt a = splitPop url "")
  /\ Attachment.width a = Photo.width photo
  /\ Attachment.height a = Photo.height photo.

Section Shapes.
Context `{C : Collaborators}.

(** A computation of the phase before the transaction: it never calls
    [postNote], and it succeeds only when none of its calls failed. *)
Definition beforeTransaction {A} (m : M A) : Prop :=
  forall st, exists d,
    trace (snd (m st)) = trace st ++ d
    /\ Forall (fun ev => isPostNote ev = false) d
    /\ (succeeded (fst (m st)) = true -> Forall (fun ev => isFailure ev = false) d).

(** The calls of one publication, with its result: either it stopped before
    the transaction, or every call before the transaction succeeded and the
    transaction, submitted once and last, decided the result. *)
Definition transactionShape (d : list Event) (r : result unit) : Prop :=
  (Forall (fun ev => isPostNote ev = false) d /\ succeeded r = false)
  \/ exists pre cid uri,
       d = pre ++ [EExternal (CPostNote cid uri) (failureOf r)]
       /\ Forall (fun ev => isPostNote ev = false) pre
       /\ Forall (fun ev => isFailure ev = false) pre.

(** A computation that acts on the world only: the module variables, the
    session store and the component state are left as they are, and every
    event it logs is a call to a collaborator. *)
Definition worldOnly {A} (m : M A) : Prop :=
  forall st,
    vars (snd (m st)) = vars st
    /\ session (snd (m st)) = session st
    /\ ui (snd (m st)) = ui st
    /\ exists d, trace (snd (m st)) = trace st ++ d
                 /\ Forall (fun ev => isExternal ev = true) d.

Definition publishes (m : M unit) : Prop :=
  forall st, exists d,
    trace (snd (m st)) = trace st ++ d /\ transactionShape d (fst (m st)).

End Shapes.

(** ** A scripted set of collaborators, for concrete runs

    Retrieval fails for an address that contains [missing]; the wallet rejects
    the key [0xbad]; the chain accepts a transaction when [chainAccepts]. *)

Definition scripted (chainAccepts : bool) (export : list MessageData.t) : Collaborators :=
  {| World := unit;
     Response := string;
     Provider := unit;
     Contract := string;
     fetchUrl url w :=
       if includesStr "missing" url then (inl (mkError ("Failed to fetch " +:+ url)), w)
       else (inr url, w);
     responseBlob r w := (inr (mkBlob "image/jpeg" 3 r), w);
     responseMessages r w := (inr export, w);
     responseOwner r w := (inr None, w);
     uploadFile b w := (inr ("ipfs://" +:+ blob_bytes b), w);
     uploadJson n w := (inr "ipfs://note", w);
     newWallet key w :=
       if String.eqb key "0xbad" then (inl (mkError "invalid private key"), w)
       else (inr ("address-of-" +:+ key), w);
     windowEthereum w := tt;
     newContract k w := (inr "contract", w);
     connect c w := (inr tt, w);
     postNote c cid uri w :=
       if chainAccepts then (inr tt, w) else (inl (mkError "execution reverted"), w);
     getOperatorPermissionsForCharacter c cid a w := (inr [], w);
     grantOperatorPermissionsForCharacter c cid a p w := (inr tt, w);
     toISOString d := inr d;
     toLowerCase s := s |}.

Definition plainMessage (id : Z) (type : string) (photo : option string) : MessageData.t :=
  MessageData.mk id type "2023-01-01T00:00:00" (Some "joined")%string photo None None None None None
    [TextEntity.mk "plain" "hello " None; TextEntity.mk "bold" "world" None].

(** The export of the scenarios: identifiers 1 to 3, message 2 a service
    message, the photo of message 3 cannot be retrieved. *)
Definition exportOfThree : list MessageData.t :=
  [plainMessage 1 "message" None;
   plainMessage 2 "service" None;
   plainMessage 3 "message" (Some "photos/missing.jpg"%string)].

(** A state after a successful initialization, with [done] recorded as
    completed and the message list [l] on screen. *)
Definition readyState (chainAccepts : bool) (done : list Z) (includeService : bool)
    (l : list MPM.t) : @State (scripted chainAccepts exportOfThree) :=
  @mkState (scripted chainAccepts exportOfThree) tt
    (@mkContractVars (scripted chainAccepts exportOfThree) (Some "contract"%string) "address" 7)
    (mkSession (mkProgress done []) (mkSetting includeService))
    (mkUi false "" false "" l "/migrate")
    [].

(** The list of the scenarios as loaded: none completed, service messages not
    included. *)
Definition loadedThree : @State (scripted true exportOfThree) :=
  withTrace [] (snd (loadMessages (readyState true [] false []))).

(** Message 1 is recorded as completed when the list is loaded, and the user
    then selects it again. *)
Definition reselectedDone : @State (scripted true exportOfThree) :=
  withTrace [] (snd (toggleItem 0 (snd (loadMessages (readyState true [1] false []))))).

(** A message with three photo references, the second without an address. *)
Definition albumPhotos : list Photo.t :=
  [Photo.mk (Some "photos/a.jpg"%string) (Some 640) (Some 480);
   Photo.mk None None None;
   Photo.mk (Some "photos/c.jpg"%string) None None].

(** A message whose only photo cannot be retrieved. *)
Definition lostPhotoMessage : MessageData.t :=
  MessageData.mk 3 "message" "2023-01-01T00:00:00" None None
    (Some [Photo.mk (Some "photos/missing.jpg"%string) None None]) None None None None [].

(** ** Further observations, for the properties beyond the claims *)

(** Whether a string has a slash. *)
Fixpoint hasSlash (s : string) : bool :=
  match s with
  | EmptyString => false
  | String c rest => Ascii.eqb c "/" || hasSlash rest
  end.

(** The photo references before the first one without an address. *)
Fixpoint beforeFirstMissing (photos : list Photo.t) : list Photo.t :=
  match photos with
  | [] => []
  | p :: rest =>
      match truthy (Photo.photo p) with
      | Some _ => p :: beforeFirstMissing rest
      | None => []
      end
  end.

(** A retrieval of a media, the reading of its blob or its upload. *)
Definition isMediaCall (e : Event) : bool :=
  match e with
  | EExternal (CFetch _) _ => true
  | EExternal CBlob _ => true
  | EExternal (CUploadFile _) _ => true
  | _ => false
  end.

(** The message with other text entities. *)
Definition withEntities (m : MessageData.t) (entities : list TextEntity.t) : MessageData.t :=
  MessageData.mk (MessageData.id m) (MessageData.type m) (MessageData.date m)
    (MessageData.action m) (MessageData.photo m) (MessageData.photos m)
    (MessageData.file m) (MessageData.mime_type m) (MessageData.width m)
    (MessageData.height m) entities.

(** The record of the generic file of a message, when it has one. *)
Definition fileRecords (m : MessageData.t) (records : list Attachment.t) : Prop :=
  match truthy (MessageData.file m) with
  | Some file =>
      exists a,
        records = [a]
        /\ Attachment.name a = splitPop file ""
        /\ Attachment.width a = MessageData.width m
        /\ Attachment.height a = MessageData.height m
        /\ forall t, truthy (MessageData.mime_type m) = Some t -> Attachment.mime_type a = t
  | None => records = []
  end.

(** The default selection of [loadMessages], on a message. *)
Definition selectedAtLoad (completed : list Z) (include : bool) (m : MessageData.t) : bool :=
  negb (includes (MessageData.id m) completed)
  && (include || negb (String.eqb (MessageData.type m) "service")).

(** The calls of a computation that stops at the first failure: with a normal
    result every call succeeded; with an error [e] every call but the last
    succeeded, and the last, when it failed, failed with [e]. *)
Definition stopsAtFailure {A} (d : list Event) (r : result A) : Prop :=
  match r with
  | inr _ => Forall (fun ev => isFailure ev = false) d
  | inl e =>
      exists pre,
        Forall (fun ev => isFailure ev = false) pre
        /\ (d = pre \/ exists c, d = pre ++ [EExternal c (Some e)])
  end.

Section MoreShapes.
Context `{C : Collaborators}.

(** A step that only retrieves and uploads media: it keeps the module
    variables, logs media calls only, and succeeds exactly when none of them
    failed. *)
Definition mediaStep {A} (m : M A) : Prop :=
  forall st,
    vars (snd (m st)) = vars st
    /\ exists d,
         trace (snd (m st)) = trace st ++ d
         /\ Forall (fun ev => isMediaCall ev = true) d
         /\ (succeeded (fst (m st)) = true <-> Forall (fun ev => isFailure ev = false) d).

Definition failStop {A} (m : M A) : Prop :=
  forall st, exists d,
    trace (snd (m st)) = trace st ++ d /\ stopsAtFailure d (fst (m st)).

End MoreShapes.

(** The scripted collaborators with another owner of the character, with a
    [Date] that rejects every date unless [validDates], and with a network
    that fails every fetch unless [online]. *)
Definition scriptedVariant (owner : option string) (validDates online : bool) : Collaborators :=
  let S := scripted true exportOfThree in
  {| World := @World S;
     Response := @Response S;
     Provider := @Provider S;
     Contract := @Contract S;
     fetchUrl url w :=
       if online then @fetchUrl S url w else (inl (mkError "Failed to fetch"), w);
     responseBlob := @responseBlob S;
     responseMessages := @responseMessages S;
     responseOwner r w := (inr owner, w);
     uploadFile := @uploadFile S;
     uploadJson := @uploadJson S;
     newWallet := @newWallet S;
     windowEthereum := @windowEthereum S;
     newContract := @newContract S;
     connect := @connect S;
     postNote := @postNote S;
     getOperatorPermissionsForCharacter := @getOperatorPermissionsForCharacter S;
     grantOperatorPermissionsForCharacter := @grantOperatorPermissionsForCharacter S;
     toISOString d := if validDates then inr d else inl (mkError "Invalid time value");
     toLowerCase := @toLowerCase S |}.

(** An initialized state for these collaborators, with an empty list. *)
Definition variantState (owner : option string) (validDates online : bool)
    : @State (scriptedVariant owner validDates online) :=
  @mkState (scriptedVariant owner validDates online) tt
    (@mkContractVars (scriptedVariant owner validDates online) (Some "contract"%string)
       "address" 7)
    (mkSession (mkProgress [1] []) (mkSetting false))
    (mkUi true "" false "" [] "/migrate")
    [].

(** The list of the scenarios, before any signing context was initialized. *)
Definition loadedWithoutContext : @State (scripted true exportOfThree) :=
  withVars (@mkContractVars (scripted true exportOfThree) None "" 0)
    (withSession (mkSession (mkProgress [8; 9] []) (mkSetting false)) loadedThree).

(** Two messages that can be published, both selected. *)
Definition twoSelected : @State (scripted true exportOfThree) :=
  readyState true [] false
    [MPM.mk (plainMessage 1 "message" None) true false false;
     MPM.mk (plainMessage 4 "message" None) true false false].

(** A message with the album, a file and text. *)
Definition albumMessage : MessageData.t :=
  MessageData.mk 9 "message" "2023-01-01T00:00:00" None None (Some albumPhotos)
    (Some "files/voice.ogg"%string) (Some "audio/ogg"%string) None None
    [TextEntity.mk "italic" "listen" None].

(** ** The calls one publication plans *)





Section Plans.
Context `{C : Collaborators}.


End Plans.


(** * Properties *)

(** ** Text Formatter *)

Lemma append_assoc (a b c : string) : (a +:+ b) +:+ c = a +:+ (b +:+ c).
Proof.
  induction a as [|x a IH]; [reflexivity|].
  change (String x ((a +:+ b) +:+ c) = String x (a +:+ (b +:+ c))). now rewrite IH.
Qed.

Lemma append_empty_r (a : string) : a +:+ "" = a.
Proof.
  induction a as [|x a IH]; [reflexivity|].
  change (String x (a +:+ "") = String x a). now rewrite IH.
Qed.

Lemma fold_left_markup (spans : list TextEntity.t) (content : string) :
  fold_left (fun content entity => content +:+ entityMarkup entity) spans content
  = content +:+ joinMarkup spans.
Proof.
  revert content. induction spans as [|e spans IH]; intros content; simpl.
  - now rewrite append_empty_r.
  - rewrite IH.
    change (joinMarkup (e :: spans)) with (entityMarkup e +:+ joinMarkup spans).
    apply append_assoc.
Qed.

Lemma entityMarkup_other (ty t : string) (h : option string) :
  ty ∉ ["bold"; "italic"; "strikethrough"; "link"; "text_link"] ->
  entityMarkup (TextEntity.mk ty t h) = t.
Proof.
  intros Hty. unfold entityMarkup. simpl.
  repeat match goal with
  | |- context [String.eqb ty ?s] =>
      destruct (String.eqb_spec ty s) as [->|_];
      [exfalso; apply Hty; repeat constructor |]
  end.
  reflexivity.
Qed.

(** C6. For a service message the Text Formatter returns the action
    description, the empty string when there is none, whatever the spans; for
    any other message it returns the spans formatted one by one and joined in
    input order, where bold is wrapped in [**], italic in [*], strikethrough in
    [~~], a link is a hyperlink with its own text as label and target, a
    text-link is a hyperlink with its text as label and its target as href, and
    any other type, plain included, is the raw text; no span gives the empty
    string. *)
Theorem C6_text_formatter :
  (forall m, MessageData.type m = "service" ->
     ParseMessageText m = default "" (MessageData.action m))
  /\ (forall m, MessageData.type m <> "service" ->
        ParseMessageText m = joinMarkup (MessageData.text_entities m))
  /\ (forall e rest, joinMarkup (e :: rest) = entityMarkup e +:+ joinMarkup rest)
  /\ joinMarkup [] = ""
  /\ (forall t h, entityMarkup (TextEntity.mk "bold" t h) = "**" +:+ t +:+ "**")
  /\ (forall t h, entityMarkup (TextEntity.mk "italic" t h) = "*" +:+ t +:+ "*")
  /\ (forall t h, entityMarkup (TextEntity.mk "strikethrough" t h) = "~~" +:+ t +:+ "~~")
  /\ (forall t h, entityMarkup (TextEntity.mk "link" t h) = "[" +:+ t +:+ "](" +:+ t +:+ ")")
  /\ (forall t target,
        entityMarkup (TextEntity.mk "text_link" t (Some target))
        = "[" +:+ t +:+ "](" +:+ target +:+ ")")
  /\ (forall ty t h,
        ty ∉ ["bold"; "italic"; "strikethrough"; "link"; "text_link"] ->
        entityMarkup (TextEntity.mk ty t h) = t)
  /\ (forall t h, entityMarkup (TextEntity.mk "plain" t h) = t)
  /\ (forall m, MessageData.type m <> "service" -> MessageData.text_entities m = [] ->
        ParseMessageText m = "").
Proof.
  assert (Hcontent : forall m, MessageData.type m <> "service" ->
            ParseMessageText m = joinMarkup (MessageData.text_entities m)).
  { intros m Hm. unfold ParseMessageText.
    destruct (String.eqb_spec (MessageData.type m) "service") as [E|_]; [contradiction|].
    now rewrite fold_left_markup. }
  repeat split; try reflexivity.
  - intros m Hm. unfold ParseMessageText. rewrite Hm. simpl.
    unfold orElse, truthy. destruct (MessageData.action m) as [[|c s]|]; reflexivity.
  - exact Hcontent.
  - apply entityMarkup_other.
  - intros m Hm He. rewrite (Hcontent m Hm), He. reflexivity.
Qed.

Lemma C6_text_formatter_witness :
  ParseMessageText (plainMessage 2 "service" None) = "joined"
  /\ ParseMessageText (plainMessage 1 "message" None) = "hello **world**"
  /\ entityMarkup (TextEntity.mk "spoiler" "x" None) = "x"
  /\ ParseMessageText
       (MessageData.mk 4 "message" "" None None None None None None None []) = "".
Proof.
  destruct C6_text_formatter as (Hs & Hc & _ & _ & _ & _ & _ & _ & _ & Ho & _ & He).
  split; [| split; [| split]].
  - apply (Hs (plainMessage 2 "service" None)). reflexivity.
  - rewrite (Hc (plainMessage 1 "message" None)); [reflexivity | discriminate].
  - apply Ho. intros H. repeat (apply elem_of_cons in H as [H|H]; [discriminate|]).
    inversion H.
  - apply He; [discriminate | reflexivity].
Defined.

(** ** The candidate list: rebuilding by slices, toggling, loading *)

Section ListProperties.
Context `{C : Collaborators}.

Lemma replaceAt_insert (l : list MPM.t) (i : nat) (x : MPM.t) :
  (i < length l)%nat -> replaceAt l i x = <[i := x]> l.
Proof.
  intros Hi. unfold replaceAt, slice.
  rewrite drop_0, (take_ge l (length l)) by lia.
  rewrite insert_take_drop by exact Hi.
  now replace (i + 1)%nat with (S i) by lia.
Qed.

Lemma replaceAt_length (l : list MPM.t) (i : nat) (x : MPM.t) :
  (i < length l)%nat -> length (replaceAt l i x) = length l.
Proof. intros Hi. rewrite replaceAt_insert by exact Hi. apply length_insert. Qed.

Lemma replaceAt_lookup (l : list MPM.t) (i : nat) (x : MPM.t) :
  (i < length l)%nat -> replaceAt l i x !! i = Some x.
Proof. intros Hi. rewrite replaceAt_insert by exact Hi. now apply list_lookup_insert_eq. Qed.

Lemma replaceAt_lookup_ne (l : list MPM.t) (i j : nat) (x : MPM.t) :
  (i < length l)%nat -> j <> i -> replaceAt l i x !! j = l !! j.
Proof.
  intros Hi Hj. rewrite replaceAt_insert by exact Hi.
  apply list_lookup_insert_ne. congruence.
Qed.

(** C10. Toggling the list item at an index flips the [isToMigrate] flag of
    that candidate and nothing else: its message, [isPendingMigrate] and
    [isMigrated] are kept, every other candidate is kept, and so are the length
    and the order of the list. *)
Theorem C10_toggle_flips_one_flag (st : State) (index : nat) (w : MPM.t) :
  messages (ui st) !! index = Some w ->
  exists st',
    toggleItem index st = (inr tt, st')
    /\ messages (ui st') !! index
       = Some (MPM.mk (MPM.message w) (negb (MPM.isToMigrate w))
                 (MPM.isPendingMigrate w) (MPM.isMigrated w))
    /\ (forall j, j <> index -> messages (ui st') !! j = messages (ui st) !! j)
    /\ length (messages (ui st')) = length (messages (ui st)).
Proof.
  intros Hw. pose proof (lookup_lt_Some _ _ _ Hw) as Hi.
  unfold toggleItem, bind, gets. rewrite Hw.
  eexists. split; [reflexivity|]. simpl.
  split; [now apply replaceAt_lookup|].
  split; [intros j Hj; now apply replaceAt_lookup_ne | now apply replaceAt_length].
Qed.

(** C4. After a load that succeeds, the candidate of each message of the
    export is selected exactly when the identifier of the message is not in
    the completed set read at load time and the include-service setting is on
    or the message is not a service message.  In the scenario of identifiers
    1 to 3, none completed, the setting off and message 2 a service message,
    the selection is 1 and 3. *)
Theorem C4_default_selection :
  (forall (st : State) res w1 ms w2,
     fetchUrl "result.json" (world st) = (inr res, w1) ->
     responseMessages res w1 = (inr ms, w2) ->
     let loaded := messages (ui (snd (loadMessages st))) in
     map MPM.message loaded = ms
     /\ forall c, c ∈ loaded ->
          (MPM.isToMigrate c = true <->
             ¬ In (MessageData.id (MPM.message c)) (finishedIDs (progress (session st)))
             /\ (includeService (setting (session st)) = true
                 \/ MessageData.type (MPM.message c) <> "service")))
  /\ map (fun c => (MessageData.id (MPM.message c), MPM.isToMigrate c))
       (messages (ui (snd (loadMessages (readyState true [] false [])))))
     = [(1, true); (2, false); (3, true)].
Proof.
  split; [| reflexivity].
  intros st res w1 ms w2 Hfetch Hjson loaded.
  assert (Hl : loaded = map (parseMessage (progress (session st)) (setting (session st))) ms).
  { unfold loaded, loadMessages, tryCatch, bind, external, setLoadingMessage, setLoading,
      getSetting, getProgress, gets, modify. simpl.
    rewrite Hfetch. simpl. rewrite Hjson. reflexivity. }
  rewrite Hl. split.
  - rewrite map_map. simpl. apply map_id.
  - intros c Hc. apply list_elem_of_fmap in Hc as (m & -> & _). simpl.
    unfold includes. rewrite andb_true_iff, negb_true_iff, orb_true_iff, negb_true_iff.
    rewrite <- not_true_iff_false, existsb_exists, String.eqb_neq.
    split; intros [H1 H2]; (split; [| exact H2]); intros H; apply H1.
    + exists (MessageData.id m). split; [exact H | apply Z.eqb_refl].
    + destruct H as (x & Hx & Heq). apply Z.eqb_eq in Heq. now subst.
Qed.

End ListProperties.

(** ** Initialization of the signing context *)

Section Initialization.
Context `{C : Collaborators}.

Lemma requireContract_uninitialized (st : State) :
  gContract (vars st) = None -> requireContract st = (inl notInitialized, st).
Proof. intros H. unfold requireContract, bind, gets. now rewrite H. Qed.

(** Every exported function of [contract.ts] that needs the contract fails
    its first check, and changes nothing, while [gContract] is [null]. *)
Lemma uninitialized_calls_fail (st : State) :
  gContract (vars st) = None ->
  getSignerAddress st = (inl notInitialized, st)
  /\ checkOperator st = (inl notInitialized, st)
  /\ addOperator st = (inl notInitialized, st)
  /\ removeOperator st = (inl notInitialized, st)
  /\ (forall m, contract.signerPostNote m st = (inl notInitialized, st))
  /\ (forall m channelName, part_000.signerPostNote m channelName st = (inl notInitialized, st)).
Proof.
  intros H. pose proof (requireContract_uninitialized st H) as HR.
  unfold getSignerAddress, checkOperator, addOperator, removeOperator, grantWithMetamask,
    contract.signerPostNote, part_000.signerPostNote.
  repeat split; intros; unfold bind at 1; now rewrite HR.
Qed.

(** C9. When [initWithPrivateKey] is given a non-empty key and fails, the
    error it throws is the one the wallet, the contract constructor or the
    connection raised, [gContract] is [null] and [signerAddress] is empty
    afterwards, and [getSignerAddress], [checkOperator], [addOperator],
    [removeOperator] and [signerPostNote] then fail the initialization
    check. *)
Theorem C9_failed_init_leaves_uninitialized
    (privateKey : string) (st st' : State) (e : Error) :
  privateKey <> "" ->
  initWithPrivateKey privateKey st = (inl e, st') ->
  (exists c, c ∈ [CNewWallet; CNewContract; CConnect]
             /\ last (trace st') = Some (EExternal c (Some e)))
  /\ gContract (vars st') = None
  /\ signerAddress (vars st') = ""
  /\ getSignerAddress st' = (inl notInitialized, st')
  /\ checkOperator st' = (inl notInitialized, st')
  /\ addOperator st' = (inl notInitialized, st')
  /\ removeOperator st' = (inl notInitialized, st')
  /\ (forall m, contract.signerPostNote m st' = (inl notInitialized, st'))
  /\ (forall m channelName,
        part_000.signerPostNote m channelName st' = (inl notInitialized, st')).
Proof.
  intros Hkey Hinit.
  assert (Hst : (exists c, c ∈ [CNewWallet; CNewContract; CConnect]
                   /\ last (trace st') = Some (EExternal c (Some e)))
                /\ gContract (vars st') = None /\ signerAddress (vars st') = "").
  { unfold initWithPrivateKey in Hinit.
    destruct (String.eqb_spec privateKey "") as [->|_]; [contradiction|].
    set (key := if String.prefix "0x" privateKey then privateKey else "0x" +:+ privateKey) in Hinit.
    unfold tryCatch, bind, external, setSignerAddress, setGContract, modify, throw in Hinit.
    destruct (newWallet key (world st)) as [[e1|address] w1] eqn:Hw; simpl in Hinit.
    - inversion Hinit; subst; simpl. rewrite last_snoc.
      split; [exists CNewWallet; split; [repeat constructor | reflexivity] | split; reflexivity].
    - destruct (newContract (inl key) w1) as [[e2|c] w2] eqn:Hc; simpl in Hinit.
      + inversion Hinit; subst; simpl. rewrite last_snoc.
        split; [exists CNewContract; split; [repeat constructor | reflexivity] | split; reflexivity].
      + destruct (connect c w2) as [[e3|[]] w3] eqn:Hk; simpl in Hinit.
        * inversion Hinit; subst; simpl. rewrite last_snoc.
          split; [exists CConnect; split; [repeat constructor | reflexivity] | split; reflexivity].
        * discriminate. }
  destruct Hst as (Hc & Hg & Ha).
  split; [exact Hc|]. split; [exact Hg|]. split; [exact Ha|].
  now apply uninitialized_calls_fail.
Qed.

End Initialization.

(** ** Note Publisher: the phase before the transaction, and the transaction *)

Section Publisher.
Context `{C : Collaborators}.

Lemma beforeTransaction_ret {A} (a : A) : beforeTransaction (ret a).
Proof. intros st. exists []. simpl. rewrite app_nil_r. repeat split; constructor. Qed.

Lemma beforeTransaction_throw {A} (e : Error) : beforeTransaction (@throw _ A e).
Proof. intros st. exists []. simpl. rewrite app_nil_r. repeat split; constructor. Qed.

Lemma beforeTransaction_gets {A} (f : State -> A) : beforeTransaction (gets f).
Proof. intros st. exists []. simpl. rewrite app_nil_r. repeat split; constructor. Qed.

Lemma beforeTransaction_liftResult {A} (r : result A) : beforeTransaction (liftResult r).
Proof. intros st. exists []. simpl. rewrite app_nil_r. repeat split; constructor. Qed.

Lemma beforeTransaction_external {A} (c : Call) (op : World -> result A * World) :
  isPostNote (EExternal c None) = false -> beforeTransaction (external c op).
Proof.
  intros Hc st. unfold external. destruct (op (world st)) as [r w].
  exists [EExternal c (failureOf r)]. simpl. split; [reflexivity|]. split.
  - constructor; [| constructor]. destruct c; try reflexivity; discriminate.
  - intros Hr. destruct r; [discriminate|]. constructor; [reflexivity | constructor].
Qed.

Lemma beforeTransaction_bind {A B} (m : M A) (f : A -> M B) :
  beforeTransaction m -> (forall a, beforeTransaction (f a)) -> beforeTransaction (bind m f).
Proof.
  intros Hm Hf st. unfold bind.
  destruct (Hm st) as (d1 & Ht1 & Hn1 & Hs1).
  destruct (m st) as [[e|a] st1]; simpl in *.
  - exists d1. repeat split; [assumption | assumption | discriminate].
  - destruct (Hf a st1) as (d2 & Ht2 & Hn2 & Hs2).
    exists (d1 ++ d2). rewrite Ht2, Ht1, app_assoc. split; [reflexivity|].
    split; [apply Forall_app; split; assumption|].
    intros Hok. apply Forall_app. split; [now apply Hs1 | now apply Hs2].
Qed.

Lemma beforeTransaction_requireContract : beforeTransaction requireContract.
Proof.
  apply beforeTransaction_bind; [apply beforeTransaction_gets|].
  intros [c|]; [apply beforeTransaction_ret | apply beforeTransaction_throw].
Qed.

Lemma beforeTransaction_uploadMedia url declared w h :
  beforeTransaction (uploadMedia url declared w h).
Proof.
  unfold uploadMedia.
  repeat (apply beforeTransaction_bind;
          [now apply beforeTransaction_external | intros ?]).
  apply beforeTransaction_ret.
Qed.

Lemma beforeTransaction_uploadFileAttachment m acc :
  beforeTransaction (uploadFileAttachment m acc).
Proof.
  unfold uploadFileAttachment. destruct (truthy (MessageData.file m)).
  - apply beforeTransaction_bind; [apply beforeTransaction_uploadMedia | intros ?].
    apply beforeTransaction_ret.
  - apply beforeTransaction_ret.
Qed.

Lemma beforeTransaction_uploadPhotos photos acc :
  beforeTransaction (part_000.uploadPhotos photos acc).
Proof.
  revert acc. induction photos as [|p photos IH]; intros acc; simpl.
  - apply beforeTransaction_ret.
  - destruct (truthy (Photo.photo p)); [| apply beforeTransaction_ret].
    apply beforeTransaction_bind; [apply beforeTransaction_uploadMedia | intros ?; apply IH].
Qed.

Lemma publishes_bind {A} (m : M A) (f : A -> M unit) :
  beforeTransaction m -> (forall a, publishes (f a)) -> publishes (bind m f).
Proof.
  intros Hm Hf st. unfold bind.
  destruct (Hm st) as (d1 & Ht1 & Hn1 & Hs1).
  destruct (m st) as [[e|a] st1]; simpl in *.
  - exists d1. split; [assumption|]. left. split; [assumption | reflexivity].
  - destruct (Hf a st1) as (d2 & Ht2 & Hshape).
    exists (d1 ++ d2). rewrite Ht2, Ht1, app_assoc. split; [reflexivity|].
    destruct Hshape as [[Hn2 Hr]|(pre & cid & uri & -> & Hn2 & Hok2)].
    + left. split; [apply Forall_app; split; assumption | assumption].
    + right. exists (d1 ++ pre), cid, uri. rewrite app_assoc. split; [reflexivity|].
      split; apply Forall_app; split; try assumption. now apply Hs1.
Qed.

Lemma publishes_postNote cid uri (op : World -> result unit * World) :
  publishes (external (CPostNote cid uri) op).
Proof.
  intros st. unfold external. destruct (op (world st)) as [r w]. simpl.
  exists [EExternal (CPostNote cid uri) (failureOf r)]. split; [reflexivity|].
  right. exists [], cid, uri. repeat split; constructor.
Qed.

Lemma publishes_signerPostNote m channelName :
  publishes (part_000.signerPostNote m channelName).
Proof.
  unfold part_000.signerPostNote.
  apply publishes_bind; [apply beforeTransaction_requireContract | intros c].
  apply publishes_bind.
  { destruct (MessageData.photos m);
      [apply beforeTransaction_uploadPhotos | apply beforeTransaction_ret]. }
  intros atts.
  apply publishes_bind; [apply beforeTransaction_uploadFileAttachment | intros atts'].
  apply publishes_bind; [apply beforeTransaction_liftResult | intros date].
  apply publishes_bind; [now apply beforeTransaction_external | intros uri].
  apply publishes_bind; [apply beforeTransaction_gets | intros cid].
  apply publishes_postNote.
Qed.

Lemma publishes_contract_signerPostNote m : publishes (contract.signerPostNote m).
Proof.
  unfold contract.signerPostNote.
  apply publishes_bind; [apply beforeTransaction_requireContract | intros c].
  apply publishes_bind.
  { destruct (truthy (MessageData.photo m)); [| apply beforeTransaction_ret].
    apply beforeTransaction_bind; [apply beforeTransaction_uploadMedia | intros ?].
    apply beforeTransaction_ret. }
  intros atts.
  apply publishes_bind; [apply beforeTransaction_uploadFileAttachment | intros atts'].
  apply publishes_bind; [now apply beforeTransaction_external | intros uri].
  apply publishes_bind; [apply beforeTransaction_gets | intros cid].
  apply publishes_postNote.
Qed.

End Publisher.

Section PublisherClaims.
Context `{C : Collaborators}.

Lemma transactionShape_no_transfer_failure (d : list Event) (r : result unit) :
  transactionShape d r ->
  (exists ev, ev ∈ d /\ isTransferFailure ev = true) ->
  succeeded r = false /\ forall ev, ev ∈ d -> isPostNote ev = false.
Proof.
  intros [[Hn Hr]|(pre & cid & uri & -> & Hn & Hok)] (ev & Hin & Hev).
  - split; [exact Hr|]. intros ev' Hin'. rewrite Forall_forall in Hn. now apply Hn.
  - exfalso. apply elem_of_app in Hin as [Hin|Hin].
    + rewrite Forall_forall in Hok. specialize (Hok ev Hin).
      destruct ev as [c [e|]| | | |]; try discriminate.
      destruct c; discriminate.
    + apply list_elem_of_singleton in Hin. subst ev. discriminate.
Qed.

Lemma filter_none (d : list Event) :
  Forall (fun ev => isPostNote ev = false) d ->
  filter (fun ev => isPostNote ev = true) d = [].
Proof.
  induction 1 as [|ev d Hev _ IH]; [reflexivity|].
  rewrite filter_cons_False by congruence. exact IH.
Qed.

Lemma transactionShape_once (d : list Event) (r : result unit) :
  transactionShape d r ->
  (length (filter (fun ev => isPostNote ev = true) d) <= 1)%nat.
Proof.
  intros [[Hn _]|(pre & cid & uri & -> & Hn & _)].
  - rewrite filter_none by exact Hn. simpl. lia.
  - rewrite filter_app, (filter_none pre Hn), app_nil_l.
    apply (length_filter (fun ev => isPostNote ev = true)
             [EExternal (CPostNote cid uri) (failureOf r)]).
Qed.

Lemma transactionShape_error (d : list Event) (r : result unit) cid uri e :
  transactionShape d r ->
  EExternal (CPostNote cid uri) (Some e) ∈ d -> r = inl e.
Proof.
  intros [[Hn _]|(pre & cid' & uri' & -> & Hn & _)] Hin.
  - rewrite Forall_forall in Hn. specialize (Hn _ Hin). discriminate.
  - apply elem_of_app in Hin as [Hin|Hin].
    + rewrite Forall_forall in Hn. specialize (Hn _ Hin). discriminate.
    + apply list_elem_of_singleton in Hin. inversion Hin as [[H1 H2 H3]].
      destruct r as [e'|[]]; simpl in H3; congruence.
Qed.

(** ** Attachment Uploader: the photos loop *)

Lemma uploadMedia_record url declared w h (st st' : State) (a : Attachment.t) :
  uploadMedia url declared w h st = (inr a, st') ->
  Attachment.name a = splitPop url "" /\ Attachment.alt a = splitPop url ""
  /\ Attachment.width a = w /\ Attachment.height a = h.
Proof.
  unfold uploadMedia, bind, external, ret.
  destruct (fetchUrl url (world st)) as [[e1|res] w1]; simpl; [discriminate|].
  destruct (responseBlob res w1) as [[e2|blob] w2]; simpl; [discriminate|].
  destruct (uploadFile blob w2) as [[e3|uri] w3]; simpl; [discriminate|].
  intros H. inversion H; subst. simpl. repeat split.
Qed.

Lemma uploadPhotos_stops pre p post acc (st : State) :
  Forall (fun q => is_Some (truthy (Photo.photo q))) pre ->
  truthy (Photo.photo p) = None ->
  part_000.uploadPhotos (pre ++ p :: post) acc st = part_000.uploadPhotos pre acc st.
Proof.
  intros Hpre Hp. revert acc st.
  induction Hpre as [|q pre [url Hq] _ IH]; intros acc st; simpl.
  - now rewrite Hp.
  - rewrite Hq. unfold bind.
    destruct (uploadMedia url None (Photo.width q) (Photo.height q) st) as [[e|a] st1];
      [reflexivity | apply IH].
Qed.

Lemma uploadPhotos_records pre acc (st st' : State) atts :
  Forall (fun q => is_Some (truthy (Photo.photo q))) pre ->
  part_000.uploadPhotos pre acc st = (inr atts, st') ->
  exists new, atts = acc ++ new /\ Forall2 recordOf pre new.
Proof.
  intros Hpre. revert acc st.
  induction Hpre as [|q pre [url Hq] _ IH]; intros acc st; simpl.
  - intros H. inversion H; subst. exists []. rewrite app_nil_r. split; constructor.
  - rewrite Hq. unfold bind.
    destruct (uploadMedia url None (Photo.width q) (Photo.height q) st)
      as [[e|a] st1] eqn:Hm; [discriminate|].
    intros H. destruct (IH _ _ H) as (new & -> & Hnew).
    apply uploadMedia_record in Hm as (Hname & Halt & Hw & Hh).
    exists (a :: new). rewrite <- app_assoc. split; [reflexivity|].
    constructor; [| exact Hnew].
    split; [exists url; repeat split; assumption | split; assumption].
Qed.

(** C7. For an empty list of photo references the Attachment Uploader gives
    no record.  For any list it stops at the first reference without an
    address: it behaves as on the references strictly before that one, whatever
    follows, and when it succeeds its records are those of these references,
    one each, in input order. *)
Theorem C7_uploader_stops_at_first_missing_address :
  (forall acc (st : State), part_000.uploadPhotos [] acc st = (inr acc, st))
  /\ forall pre p post acc (st : State),
       Forall (fun q => is_Some (truthy (Photo.photo q))) pre ->
       truthy (Photo.photo p) = None ->
       part_000.uploadPhotos (pre ++ p :: post) acc st = part_000.uploadPhotos pre acc st
       /\ forall atts st',
            part_000.uploadPhotos (pre ++ p :: post) acc st = (inr atts, st') ->
            exists new, atts = acc ++ new /\ Forall2 recordOf pre new.
Proof.
  split; [reflexivity|].
  intros pre p post acc st Hpre Hp.
  split; [now apply uploadPhotos_stops|].
  intros atts st'. rewrite uploadPhotos_stops by assumption.
  now apply uploadPhotos_records.
Qed.

End PublisherClaims.

(** ** Migration Driver: one step of the run loop *)

Section DriverSteps.
Context `{C : Collaborators}.

Lemma publishCalls_app (a b : list Event) :
  publishCalls (a ++ b) = publishCalls a ++ publishCalls b.
Proof.
  induction a as [|ev a IH]; [reflexivity|].
  destruct ev; simpl; rewrite IH; reflexivity.
Qed.

Lemma setMessagesCalls_app (a b : list Event) :
  setMessagesCalls (a ++ b) = setMessagesCalls a ++ setMessagesCalls b.
Proof.
  induction a as [|ev a IH]; [reflexivity|].
  destruct ev; simpl; rewrite IH; reflexivity.
Qed.

Lemma external_calls_only (d : list Event) :
  Forall (fun ev => isExternal ev = true) d ->
  publishCalls d = [] /\ setMessagesCalls d = [] /\ setProgressCalls d = [].
Proof.
  induction 1 as [|ev d Hev _ (IH1 & IH2 & IH3)]; [repeat split|].
  destruct ev; try discriminate. simpl. repeat split; assumption.
Qed.

Lemma worldOnly_ret {A} (a : A) : worldOnly (ret a).
Proof. intros st. repeat split. exists []. simpl. now rewrite app_nil_r. Qed.

Lemma worldOnly_throw {A} (e : Error) : worldOnly (@throw _ A e).
Proof. intros st. repeat split. exists []. simpl. now rewrite app_nil_r. Qed.

Lemma worldOnly_gets {A} (f : State -> A) : worldOnly (gets f).
Proof. intros st. repeat split. exists []. simpl. now rewrite app_nil_r. Qed.

Lemma worldOnly_external {A} (c : Call) (op : World -> result A * World) :
  worldOnly (external c op).
Proof.
  intros st. unfold external. destruct (op (world st)) as [r w]. simpl.
  repeat split. exists [EExternal c (failureOf r)]. split; [reflexivity|].
  constructor; [reflexivity | constructor].
Qed.

Lemma worldOnly_bind {A B} (m : M A) (f : A -> M B) :
  worldOnly m -> (forall a, worldOnly (f a)) -> worldOnly (bind m f).
Proof.
  intros Hm Hf st. unfold bind.
  destruct (Hm st) as (Hv & Hs & Hu & d1 & Ht1 & Hd1).
  destruct (m st) as [[e|a] st1]; simpl in *.
  - repeat split; try assumption. now exists d1.
  - destruct (Hf a st1) as (Hv2 & Hs2 & Hu2 & d2 & Ht2 & Hd2).
    repeat split; try congruence.
    exists (d1 ++ d2). rewrite Ht2, Ht1, app_assoc. split; [reflexivity|].
    apply Forall_app. split; assumption.
Qed.

Lemma worldOnly_uploadMedia url declared w h : worldOnly (uploadMedia url declared w h).
Proof.
  unfold uploadMedia.
  repeat (apply worldOnly_bind; [apply worldOnly_external | intros ?]).
  apply worldOnly_ret.
Qed.

Lemma worldOnly_signerPostNote m : worldOnly (contract.signerPostNote m).
Proof.
  unfold contract.signerPostNote, requireContract, uploadFileAttachment.
  apply worldOnly_bind.
  { apply worldOnly_bind; [apply worldOnly_gets|].
    intros [c|]; [apply worldOnly_ret | apply worldOnly_throw]. }
  intros c. apply worldOnly_bind.
  { destruct (truthy (MessageData.photo m)); [| apply worldOnly_ret].
    apply worldOnly_bind; [apply worldOnly_uploadMedia | intros ?; apply worldOnly_ret]. }
  intros atts. apply worldOnly_bind.
  { destruct (truthy (MessageData.file m)); [| apply worldOnly_ret].
    apply worldOnly_bind; [apply worldOnly_uploadMedia | intros ?; apply worldOnly_ret]. }
  intros atts'.
  apply worldOnly_bind; [apply worldOnly_external | intros uri].
  apply worldOnly_bind; [apply worldOnly_gets | intros cid].
  apply worldOnly_external.
Qed.

(** A candidate that is not selected: only the loading message changes. *)
Lemma processMessage_skipped (l : list MPM.t) (j : nat) (w : MPM.t) (st : State) :
  l !! j = Some w -> MPM.isToMigrate w = false ->
  processMessage l j st = (inr tt, snd (setLoadingMessage (processingText l j) st)).
Proof. intros Hw Hsel. unfold processMessage, bind. simpl. now rewrite Hw, Hsel. Qed.

(** A selected candidate: the publisher is called in [publishState]; when it
    throws, so does the step, and when it returns, the step records the
    success. *)
Lemma processMessage_selected (l : list MPM.t) (j : nat) (w : MPM.t) (st : State) :
  l !! j = Some w -> MPM.isToMigrate w = true ->
  processMessage l j st
  = match contract.signerPostNote (MPM.message w) (publishState l j w st) with
    | (inl e, st4) => (inl e, st4)
    | (inr _, st4) => (inr tt, recordSuccess l j w st4)
    end.
Proof.
  intros Hw Hsel. unfold processMessage, bind at 1. simpl. rewrite Hw, Hsel.
  unfold publishState, recordSuccess, bind. simpl.
  destruct (contract.signerPostNote (MPM.message w) _) as [[e|[]] st4]; reflexivity.
Qed.

Lemma publishState_facts (l : list MPM.t) (j : nat) (w : MPM.t) (st : State) :
  trace (publishState l j w st)
  = trace st ++ [ESetMessages (replaceAt l j (markPending w)); ESignerPostNote (MPM.message w)]
  /\ vars (publishState l j w st) = vars st
  /\ session (publishState l j w st) = session st
  /\ messages (ui (publishState l j w st)) = replaceAt l j (markPending w)
  /\ isLoading (ui (publishState l j w st)) = isLoading (ui st)
  /\ isShowingError (ui (publishState l j w st)) = isShowingError (ui st)
  /\ errorMessage (ui (publishState l j w st)) = errorMessage (ui st)
  /\ location (ui (publishState l j w st)) = location (ui st).
Proof. unfold publishState. simpl. rewrite <- app_assoc. repeat split. Qed.

Lemma recordSuccess_facts (l : list MPM.t) (j : nat) (w : MPM.t) (st : State) :
  let p := mkProgress (finishedIDs (progress (session st)) ++ [MessageData.id (MPM.message w)])
             (otherFields (progress (session st))) in
  trace (recordSuccess l j w st)
  = trace st ++ [ESetProgress p; ESetMessages (replaceAt l j (markMigrated w))]
  /\ vars (recordSuccess l j w st) = vars st
  /\ progress (session (recordSuccess l j w st)) = p
  /\ setting (session (recordSuccess l j w st)) = setting (session st)
  /\ messages (ui (recordSuccess l j w st)) = replaceAt l j (markMigrated w)
  /\ isLoading (ui (recordSuccess l j w st)) = isLoading (ui st)
  /\ isShowingError (ui (recordSuccess l j w st)) = isShowingError (ui st)
  /\ errorMessage (ui (recordSuccess l j w st)) = errorMessage (ui st)
  /\ location (ui (recordSuccess l j w st)) = location (ui st).
Proof. unfold recordSuccess. simpl. rewrite <- app_assoc. repeat split. Qed.

(** What the call of the publisher in a step leaves: the store and the
    component state of [publishState], and calls to collaborators only. *)
Lemma publisher_call_frame (l : list MPM.t) (j : nat) (w : MPM.t) (st : State) r st4 :
  contract.signerPostNote (MPM.message w) (publishState l j w st) = (r, st4) ->
  exists dext,
    Forall (fun ev => isExternal ev = true) dext
    /\ trace st4
       = trace st ++ [ESetMessages (replaceAt l j (markPending w));
                      ESignerPostNote (MPM.message w)] ++ dext
    /\ vars st4 = vars st
    /\ session st4 = session st
    /\ ui st4 = ui (publishState l j w st).
Proof.
  intros Hcall.
  destruct (worldOnly_signerPostNote (MPM.message w) (publishState l j w st))
    as (Hv & Hs & Hu & dext & Ht & Hd).
  rewrite Hcall in Hv, Hs, Hu, Ht. cbn [fst snd] in Hv, Hs, Hu, Ht.
  destruct (publishState_facts l j w st) as (Ht0 & Hv0 & Hs0 & _).
  exists dext. split; [exact Hd|]. split; [| repeat split; congruence].
  rewrite Ht, Ht0, <- app_assoc. reflexivity.
Qed.


End DriverSteps.

(** ** Migration Driver: the run loop *)

Section DriverLoop.
Context `{C : Collaborators}.

Lemma selected_app (a b : list MPM.t) : selected (a ++ b) = selected a ++ selected b.
Proof. apply filter_app. Qed.

Lemma selected_singleton (w : MPM.t) :
  selected [w] = if MPM.isToMigrate w then [w] else [].
Proof.
  unfold selected. destruct (MPM.isToMigrate w) eqn:E.
  - now rewrite filter_cons_True.
  - rewrite filter_cons_False; [reflexivity | congruence].
Qed.

Lemma forLoop_split (body : nat -> M unit) (n m : nat) :
  forall i (st : State),
    forLoop body i (n + m) st
    = match forLoop body i n st with
      | (inr _, st1) => forLoop body (i + n) m st1
      | (inl e, st1) => (inl e, st1)
      end.
Proof.
  induction n as [|n IH]; intros i st; simpl.
  - now replace (i + 0)%nat with i by lia.
  - unfold bind. destruct (body i st) as [[e|[]] st1]; [reflexivity|].
    rewrite IH. now replace (i + S n)%nat with (S i + n)%nat by lia.
Qed.

Lemma forLoop_one (body : nat -> M unit) (i : nat) (st : State) :
  forLoop body i 1 st = body i st.
Proof. simpl. unfold bind. destruct (body i st) as [[e|[]] st1]; reflexivity. Qed.

(** One step that returns: its calls of the publisher, and what it leaves. *)
Lemma processMessage_returned (l : list MPM.t) (j : nat) (w : MPM.t) (st st' : State) :
  l !! j = Some w ->
  processMessage l j st = (inr tt, st') ->
  exists d,
    trace st' = trace st ++ d
    /\ publishCalls d = map MPM.message (selected [w])
    /\ finishedIDs (progress (session st'))
       = finishedIDs (progress (session st)) ++ map MessageData.id (publishCalls d)
    /\ otherFields (progress (session st')) = otherFields (progress (session st))
    /\ setting (session st') = setting (session st)
    /\ vars st' = vars st
    /\ isShowingError (ui st') = isShowingError (ui st)
    /\ errorMessage (ui st') = errorMessage (ui st)
    /\ location (ui st') = location (ui st).
Proof.
  intros Hw. rewrite selected_singleton. destruct (MPM.isToMigrate w) eqn:Hsel.
  - rewrite (processMessage_selected l j w st Hw Hsel).
    destruct (contract.signerPostNote (MPM.message w) (publishState l j w st))
      as [[e|u] st4] eqn:Hcall; [discriminate|].
    intros H. inversion H; subst st'; clear H.
    destruct (publisher_call_frame l j w st _ _ Hcall) as (dext & Hext & Ht & Hv & Hs & Hu).
    destruct (recordSuccess_facts l j w st4) as (Ht' & Hv' & Hp' & Hs' & _ & _ & He1 & He2 & He3).
    destruct (publishState_facts l j w st) as (_ & _ & _ & _ & _ & Hf1 & Hf2 & Hf3).
    destruct (external_calls_only dext Hext) as (Hpc & _ & _).
    eexists. split; [rewrite Ht', Ht, <- !app_assoc; reflexivity|].
    simpl. rewrite publishCalls_app, Hpc. simpl.
    rewrite Hs, Hu. repeat split; congruence.
  - rewrite (processMessage_skipped l j w st Hw Hsel).
    intros H. inversion H; subst st'; clear H.
    exists []. simpl. rewrite !app_nil_r. repeat split.
Qed.

(** The first [j] steps of a run, when all of them return: the publisher was
    called for the selected candidates among the first [j], each once and in
    order, and the identifiers of their messages were appended. *)
Lemma forLoop_prefix (l : list MPM.t) (j : nat) :
  forall (st st' : State),
    (j <= length l)%nat ->
    forLoop (processMessage l) 0 j st = (inr tt, st') ->
    exists d,
      trace st' = trace st ++ d
      /\ publishCalls d = map MPM.message (selected (take j l))
      /\ finishedIDs (progress (session st'))
         = finishedIDs (progress (session st)) ++ map MessageData.id (publishCalls d)
      /\ otherFields (progress (session st')) = otherFields (progress (session st))
      /\ setting (session st') = setting (session st)
      /\ vars st' = vars st
      /\ isShowingError (ui st') = isShowingError (ui st)
      /\ errorMessage (ui st') = errorMessage (ui st)
      /\ location (ui st') = location (ui st).
Proof.
  induction j as [|j IH]; intros st st' Hj Hrun.
  - simpl in Hrun. inversion Hrun; subst. exists []. simpl. rewrite !app_nil_r. repeat split.
  - replace (S j) with (j + 1)%nat in Hrun by lia.
    rewrite forLoop_split in Hrun.
    destruct (forLoop (processMessage l) 0 j st) as [[e|[]] st1] eqn:Hfirst; [discriminate|].
    rewrite forLoop_one in Hrun. simpl in Hrun.
    destruct (lookup_lt_is_Some_2 l j ltac:(lia)) as [w Hw].
    destruct (IH st st1 ltac:(lia) Hfirst) as (d1 & Ht1 & Hp1 & Hf1 & Ho1 & Hs1 & Hv1 & Ha1 & Hb1 & Hc1).
    destruct (processMessage_returned l j w st1 st' Hw Hrun)
      as (d2 & Ht2 & Hp2 & Hf2 & Ho2 & Hs2 & Hv2 & Ha2 & Hb2 & Hc2).
    exists (d1 ++ d2). rewrite (take_S_r l j w Hw), selected_app, map_app.
    rewrite publishCalls_app, map_app, Hp1, Hp2.
    split; [rewrite Ht2, Ht1, app_assoc; reflexivity|].
    split; [reflexivity|].
    split; [rewrite Hf2, Hf1, Hp1, Hp2, app_assoc; reflexivity|].
    repeat split; congruence.
Qed.

(** Every list a run of the loop hands to [setMessages] is the closed-over
    list with one selected candidate marked pending or marked migrated. *)
Lemma forLoop_updates (l : list MPM.t) (n : nat) :
  forall i (st : State),
    (i + n <= length l)%nat ->
    exists d,
      trace (snd (forLoop (processMessage l) i n st)) = trace st ++ d
      /\ Forall (runUpdate l) (setMessagesCalls d).
Proof.
  induction n as [|n IH]; intros i st Hi; simpl.
  - exists []. rewrite app_nil_r. split; constructor.
  - destruct (lookup_lt_is_Some_2 l i ltac:(lia)) as [w Hw].
    unfold bind. destruct (MPM.isToMigrate w) eqn:Hsel.
    + rewrite (processMessage_selected l i w st Hw Hsel).
      destruct (contract.signerPostNote (MPM.message w) (publishState l i w st))
        as [[e|u] st4] eqn:Hcall;
        destruct (publisher_call_frame l i w st _ _ Hcall) as (dext & Hext & Ht & _);
        destruct (external_calls_only dext Hext) as (_ & Hsm & _).
      * eexists. split; [exact Ht|]. simpl. rewrite Hsm.
        constructor; [| constructor]. exists i, w. auto.
      * destruct (IH (S i) (recordSuccess l i w st4) ltac:(lia)) as (d & Htd & Hd).
        destruct (recordSuccess_facts l i w st4) as (Ht' & _).
        eexists. split; [rewrite Htd, Ht', Ht, <- !app_assoc; reflexivity|].
        simpl. rewrite !setMessagesCalls_app, Hsm. simpl.
        constructor; [exists i, w; auto|].
        constructor; [exists i, w; auto | exact Hd].
    + rewrite (processMessage_skipped l i w st Hw Hsel).
      destruct (IH (S i) (snd (setLoadingMessage (processingText l i) st)) ltac:(lia))
        as (d & Htd & Hd).
      exists d. split; [exact Htd | exact Hd].
Qed.

(** The [onClick] of the start button, by the outcome of its loop. *)
Lemma startProcessing_outcome (st : State) :
  startProcessing st
  = match forLoop (processMessage (messages (ui st))) 0 (length (messages (ui st)))
            (snd (runEntry st)) with
    | (inr _, st1) => (inr tt, snd (setLoading false (snd (nav "/finish" st1))))
    | (inl e, st1) => (inr tt, snd (setLoading false (snd (showError e st1))))
    end.
Proof.
  unfold startProcessing, bind, tryCatch, gets. simpl.
  destruct (forLoop _ 0 _ _) as [[e|[]] st1]; reflexivity.
Qed.

Lemma runEntry_facts (st : State) :
  trace (snd (runEntry st))
  = trace st ++ [ESetProgress (mkProgress [] (otherFields (progress (session st))))]
  /\ progress (session (snd (runEntry st)))
     = mkProgress [] (otherFields (progress (session st)))
  /\ setting (session (snd (runEntry st))) = setting (session st)
  /\ vars (snd (runEntry st)) = vars st
  /\ messages (ui (snd (runEntry st))) = messages (ui st)
  /\ isShowingError (ui (snd (runEntry st))) = isShowingError (ui st)
  /\ errorMessage (ui (snd (runEntry st))) = errorMessage (ui st)
  /\ location (ui (snd (runEntry st))) = location (ui st).
Proof. repeat split. Qed.

End DriverLoop.

(** ** Note Publisher: what it leaves alone, and the calls it plans *)

Section PublisherPlan.
Context `{C : Collaborators}.

Lemma worldOnly_liftResult {A} (r : result A) : worldOnly (liftResult r).
Proof. intros st. repeat split. exists []. simpl. now rewrite app_nil_r. Qed.

Lemma worldOnly_requireContract : worldOnly requireContract.
Proof.
  apply worldOnly_bind; [apply worldOnly_gets|].
  intros [c|]; [apply worldOnly_ret | apply worldOnly_throw].
Qed.

Lemma worldOnly_uploadFileAttachment m acc : worldOnly (uploadFileAttachment m acc).
Proof.
  unfold uploadFileAttachment. destruct (truthy (MessageData.file m)); [| apply worldOnly_ret].
  apply worldOnly_bind; [apply worldOnly_uploadMedia | intros ?; apply worldOnly_ret].
Qed.

Lemma worldOnly_uploadPhotos photos acc : worldOnly (part_000.uploadPhotos photos acc).
Proof.
  revert acc. induction photos as [|p photos IH]; intros acc; simpl.
  - apply worldOnly_ret.
  - destruct (truthy (Photo.photo p)); [| apply worldOnly_ret].
    apply worldOnly_bind; [apply worldOnly_uploadMedia | intros ?; apply IH].
Qed.

(** The later revision of [signerPostNote] acts on the world only: it writes
    neither the session store nor the candidate list. *)
Lemma worldOnly_part_000_signerPostNote m channelName :
  worldOnly (part_000.signerPostNote m channelName).
Proof.
  unfold part_000.signerPostNote.
  apply worldOnly_bind; [apply worldOnly_requireContract | intros c].
  apply worldOnly_bind.
  { destruct (MessageData.photos m); [apply worldOnly_uploadPhotos | apply worldOnly_ret]. }
  intros atts.
  apply worldOnly_bind; [apply worldOnly_uploadFileAttachment | intros atts'].
  apply worldOnly_bind; [apply worldOnly_liftResult | intros date].
  apply worldOnly_bind; [apply worldOnly_external | intros uri].
  apply worldOnly_bind; [apply worldOnly_gets | intros cid].
  apply worldOnly_external.
Qed.

(** C5, as the code has it. When a media retrieval, a media upload or the
    persistence of the note document fails, [signerPostNote] fails and has not
    called [postNote]; whatever its outcome it leaves the session store, the
    candidate list and the module variables as they were, so it does not mark
    the message migrated; [postNote] is called at most once per publication;
    and when the transaction fails, the error of the chain client is thrown as
    it is. *)
Theorem C5_failure_stops_before_transaction
    (m : MessageData.t) (channelName : string) (st : State) :
  exists d,
    trace (snd (part_000.signerPostNote m channelName st)) = trace st ++ d
    /\ ((exists ev, ev ∈ d /\ isTransferFailure ev = true) ->
          succeeded (fst (part_000.signerPostNote m channelName st)) = false
          /\ forall ev, ev ∈ d -> isPostNote ev = false)
    /\ session (snd (part_000.signerPostNote m channelName st)) = session st
    /\ ui (snd (part_000.signerPostNote m channelName st)) = ui st
    /\ vars (snd (part_000.signerPostNote m channelName st)) = vars st
    /\ (length (filter (fun ev => isPostNote ev = true) d) <= 1)%nat
    /\ (forall cid uri e,
          EExternal (CPostNote cid uri) (Some e) ∈ d ->
          fst (part_000.signerPostNote m channelName st) = inl e).
Proof.
  destruct (publishes_signerPostNote m channelName st) as (d & Ht & Hshape).
  destruct (worldOnly_part_000_signerPostNote m channelName st) as (Hv & Hs & Hu & _).
  exists d. split; [exact Ht|]. split; [| split; [| split; [| split; [| split]]]].
  - now apply transactionShape_no_transfer_failure.
  - exact Hs.
  - exact Hu.
  - exact Hv.
  - now apply transactionShape_once with (r := fst (part_000.signerPostNote m channelName st)).
  - intros cid uri e. now apply transactionShape_error.
Qed.

Lemma failStop_pure {A} (r : result A) : failStop (fun st : State => (r, st)).
Proof.
  intros st. exists []. simpl. rewrite app_nil_r. split; [reflexivity|].
  destruct r as [e|a]; simpl; [| constructor].
  exists []. split; [constructor | now left].
Qed.

Lemma failStop_ret {A} (x : A) : failStop (ret x).
Proof. apply (failStop_pure (inr x)). Qed.

Lemma failStop_throw {A} (e : Error) : failStop (@throw _ A e).
Proof. apply (failStop_pure (inl e)). Qed.

Lemma failStop_gets {A} (f : State -> A) : failStop (gets f).
Proof.
  intros st. exists []. simpl. rewrite app_nil_r. split; [reflexivity | constructor].
Qed.

Lemma failStop_external {A} (c : Call) (op : World -> result A * World) :
  failStop (external c op).
Proof.
  intros st. unfold external. destruct (op (world st)) as [[e|a] w]; simpl.
  - eexists. split; [reflexivity|]. exists []. split; [constructor|]. right. now exists c.
  - eexists. split; [reflexivity|]. constructor; [reflexivity | constructor].
Qed.

Lemma failStop_bind {A B} (m : M A) (f : A -> M B) :
  failStop m -> (forall a, failStop (f a)) -> failStop (bind m f).
Proof.
  intros Hm Hf st. unfold bind.
  destruct (Hm st) as (d1 & Ht1 & Hs1).
  destruct (m st) as [[e|a] st1]; simpl in *.
  - exists d1. split; assumption.
  - destruct (Hf a st1) as (d2 & Ht2 & Hs2).
    exists (d1 ++ d2). rewrite Ht2, Ht1, app_assoc. split; [reflexivity|].
    destruct (fst (f a st1)) as [e|b]; simpl in *.
    + destruct Hs2 as (pre & Hpre & Hd).
      exists (d1 ++ pre). split; [apply Forall_app; split; assumption|].
      destruct Hd as [->|(c & ->)]; [now left | right].
      exists c. now rewrite app_assoc.
    + apply Forall_app. split; assumption.
Qed.

Lemma failStop_requireContract : failStop requireContract.
Proof.
  apply failStop_bind; [apply failStop_gets |].
  intros [c|]; [apply failStop_ret | apply failStop_throw].
Qed.

Lemma failStop_uploadMedia url declared w h : failStop (uploadMedia url declared w h).
Proof.
  unfold uploadMedia.
  repeat (apply failStop_bind; [apply failStop_external | intros ?]).
  apply failStop_ret.
Qed.

Lemma failStop_uploadFileAttachment m acc : failStop (uploadFileAttachment m acc).
Proof.
  unfold uploadFileAttachment. destruct (truthy (MessageData.file m)).
  - apply failStop_bind; [apply failStop_uploadMedia | intros ?].
    apply failStop_ret.
  - apply failStop_ret.
Qed.

Lemma failStop_uploadPhotos photos acc : failStop (part_000.uploadPhotos photos acc).
Proof.
  revert acc. induction photos as [|p photos IH]; intros acc; simpl.
  - apply failStop_ret.
  - destruct (truthy (Photo.photo p)); [| apply failStop_ret].
    apply failStop_bind; [apply failStop_uploadMedia | intros ?; apply IH].
Qed.

Lemma failStop_contract_signerPostNote m : failStop (contract.signerPostNote m).
Proof.
  unfold contract.signerPostNote.
  apply failStop_bind; [apply failStop_requireContract | intros c].
  apply failStop_bind.
  { destruct (truthy (MessageData.photo m)); [| apply failStop_ret].
    apply failStop_bind; [apply failStop_uploadMedia | intros ?].
    apply failStop_ret. }
  intros atts.
  apply failStop_bind; [apply failStop_uploadFileAttachment | intros atts'].
  apply failStop_bind; [apply failStop_external | intros uri].
  apply failStop_bind; [apply failStop_gets | intros cid].
  apply failStop_external.
Qed.

Lemma failStop_part_000_signerPostNote m channelName :
  failStop (part_000.signerPostNote m channelName).
Proof.
  unfold part_000.signerPostNote.
  apply failStop_bind; [apply failStop_requireContract | intros c].
  apply failStop_bind.
  { destruct (MessageData.photos m);
      [apply failStop_uploadPhotos | apply failStop_ret]. }
  intros atts.
  apply failStop_bind; [apply failStop_uploadFileAttachment | intros atts'].
  apply failStop_bind; [apply (failStop_pure (toISOString _)) | intros date].
  apply failStop_bind; [apply failStop_external | intros uri].
  apply failStop_bind; [apply failStop_gets | intros cid].
  apply failStop_external.
Qed.

Lemma failStop_checkOperator : failStop checkOperator.
Proof.
  unfold checkOperator.
  apply failStop_bind; [apply failStop_requireContract | intros c].
  apply failStop_bind; [apply failStop_gets | intros cid].
  apply failStop_bind; [apply failStop_gets | intros addr].
  apply failStop_bind; [apply failStop_external | intros res].
  apply failStop_bind; [apply failStop_external | intros owner].
  match goal with |- failStop (if ?b then _ else _) => destruct b end.
  - apply failStop_ret.
  - apply failStop_bind; [apply failStop_external | intros ps].
    apply failStop_ret.
Qed.

(** A failed call is the last call, and its error is the error thrown. *)
Lemma stopsAtFailure_last {A} (d : list Event) (r : result A) a ev b :
  stopsAtFailure d r ->
  d = a ++ ev :: b ->
  isFailure ev = true ->
  b = [] /\ exists c e, ev = EExternal c (Some e) /\ r = inl e.
Proof.
  intros Hs -> Hev. destruct r as [e|x]; simpl in Hs.
  - destruct Hs as (pre & Hpre & [Hd|(c & Hd)]).
    + subst pre. rewrite Forall_forall in Hpre.
      specialize (Hpre ev ltac:(apply elem_of_app; right; left)). congruence.
    + destruct b as [|y b' _] using rev_ind.
      * apply app_inj_tail in Hd as [_ ->]. split; [reflexivity|]. now exists c, e.
      * change (a ++ ev :: b' ++ [y]) with (a ++ (ev :: b') ++ [y]) in Hd.
        rewrite app_assoc in Hd. apply app_inj_tail in Hd as [<- _].
        rewrite Forall_forall in Hpre.
        specialize (Hpre ev ltac:(apply elem_of_app; right; left)). congruence.
  - rewrite Forall_forall in Hs.
    specialize (Hs ev ltac:(apply elem_of_app; right; left)). congruence.
Qed.







End PublisherPlan.

(** ** Migration Driver: the claims about a run *)

Section DriverClaims.
Context `{C : Collaborators}.

(** C1, as the code has it. The run loop calls the Note Publisher for the
    candidate at an index exactly when that candidate is selected, whether or
    not it is already marked migrated.  When the call succeeds, the identifier
    of the message is appended to the completed set and the candidate is
    marked migrated, its pending flag cleared, in the state from which the next
    index is processed.  A loop that runs to its end has called the publisher
    for the selected candidates, each once and in list order. *)
Theorem C1_publisher_called_when_selected :
  (forall l j w (st : State),
     l !! j = Some w ->
     exists d,
       trace (snd (processMessage l j st)) = trace st ++ d
       /\ publishCalls d = if MPM.isToMigrate w then [MPM.message w] else [])
  /\ (forall l j w (st st4 : State) n,
        l !! j = Some w ->
        MPM.isToMigrate w = true ->
        contract.signerPostNote (MPM.message w) (publishState l j w st) = (inr tt, st4) ->
        exists st',
          forLoop (processMessage l) j (S n) st = forLoop (processMessage l) (S j) n st'
          /\ finishedIDs (progress (session st'))
             = finishedIDs (progress (session st)) ++ [MessageData.id (MPM.message w)]
          /\ messages (ui st') !! j
             = Some (MPM.mk (MPM.message w) (MPM.isToMigrate w) false true))
  /\ (forall l (st st' : State),
        forLoop (processMessage l) 0 (length l) st = (inr tt, st') ->
        exists d,
          trace st' = trace st ++ d
          /\ publishCalls d = map MPM.message (selected l)).
Proof.
  split; [| split].
  - intros l j w st Hw. destruct (MPM.isToMigrate w) eqn:Hsel.
    + rewrite (processMessage_selected l j w st Hw Hsel).
      destruct (contract.signerPostNote (MPM.message w) (publishState l j w st))
        as [[e|u] st4] eqn:Hcall;
        destruct (publisher_call_frame l j w st _ _ Hcall) as (dext & Hext & Ht & _);
        destruct (external_calls_only dext Hext) as (Hpc & _ & _); cbn [snd].
      * eexists. split; [exact Ht|]. simpl. now rewrite Hpc.
      * destruct (recordSuccess_facts l j w st4) as (Ht' & _).
        eexists. split; [rewrite Ht', Ht, <- !app_assoc; reflexivity|].
        simpl. rewrite publishCalls_app, Hpc. reflexivity.
    + rewrite (processMessage_skipped l j w st Hw Hsel).
      exists []. simpl. now rewrite app_nil_r.
  - intros l j w st st4 n Hw Hsel Hcall.
    exists (recordSuccess l j w st4).
    destruct (publisher_call_frame l j w st _ _ Hcall) as (dext & _ & _ & _ & Hs & _).
    destruct (recordSuccess_facts l j w st4) as (_ & _ & Hp & _ & Hm & _).
    split; [| split].
    + simpl. unfold bind at 1.
      now rewrite (processMessage_selected l j w st Hw Hsel), Hcall.
    + rewrite Hp, Hs. reflexivity.
    + rewrite Hm. apply replaceAt_lookup. now apply lookup_lt_Some in Hw.
  - intros l st st' Hrun.
    destruct (forLoop_prefix l (length l) st st' ltac:(lia) Hrun) as (d & Ht & Hp & _).
    exists d. split; [exact Ht|]. now rewrite Hp, take_ge by lia.
Qed.


End DriverClaims.

Section RunAndLoad.
Context `{C : Collaborators}.

(** The calls of a whole run: the reset of the Progress Record, then the calls
    of the loop, then the navigation when the loop ran to its end. *)
Lemma startProcessing_trace (st : State) :
  exists dloop tail,
    trace (snd (startProcessing st))
    = trace st ++ [ESetProgress (mkProgress [] (otherFields (progress (session st))))]
        ++ dloop ++ tail
    /\ Forall (runUpdate (messages (ui st))) (setMessagesCalls dloop)
    /\ (tail = [] \/ tail = [ENavigate "/finish"]).
Proof.
  destruct (forLoop_updates (messages (ui st)) (length (messages (ui st))) 0
              (snd (runEntry st)) ltac:(lia)) as (dloop & Ht & Hd).
  destruct (runEntry_facts st) as (Ht0 & _).
  rewrite startProcessing_outcome.
  destruct (forLoop _ 0 _ _) as [[e|u] st1]; cbn [snd] in *.
  - exists dloop, []. split; [| split; [exact Hd | now left]].
    simpl. rewrite Ht, Ht0, app_nil_r, <- app_assoc. reflexivity.
  - exists dloop, [ENavigate "/finish"]. split; [| split; [exact Hd | now right]].
    simpl. rewrite Ht, Ht0, <- !app_assoc. reflexivity.
Qed.

Lemma loadMessages_loaded (st : State) res w1 ms w2 :
  fetchUrl "result.json" (world st) = (inr res, w1) ->
  responseMessages res w1 = (inr ms, w2) ->
  messages (ui (snd (loadMessages st)))
  = map (parseMessage (progress (session st)) (setting (session st))) ms.
Proof.
  intros Hfetch Hjson.
  unfold loadMessages, tryCatch, bind, external, setLoadingMessage, setLoading,
    getSetting, getProgress, gets, modify. simpl.
  rewrite Hfetch. simpl. rewrite Hjson. reflexivity.
Qed.

(** C3. The first thing a run writes to the Progress Record is the record with
    an empty completed set, and a run does not depend on the completed set it
    finds.  The [isMigrated] flag and the default exclusion of a candidate are
    computed at load, from the completed set read then; the lists a run sets
    are the list it closed over with one selected candidate marked pending or
    migrated, so a run never computes that annotation again. *)
Theorem C3_reset_at_entry_annotation_at_load :
  (forall st : State,
     exists d,
       trace (snd (startProcessing st)) = trace st ++ d
       /\ head (setProgressCalls d)
          = Some (mkProgress [] (otherFields (progress (session st))))
       /\ Forall (runUpdate (messages (ui st))) (setMessagesCalls d))
  /\ (forall (st : State) ids,
        startProcessing (withFinishedIDs ids st) = startProcessing (withFinishedIDs [] st))
  /\ (forall (st : State) res w1 ms w2,
        fetchUrl "result.json" (world st) = (inr res, w1) ->
        responseMessages res w1 = (inr ms, w2) ->
        let atLoad := finishedIDs (progress (session st)) in
        let loaded := messages (ui (snd (loadMessages st))) in
        map MPM.message loaded = ms
        /\ forall c, c ∈ loaded ->
             MPM.isMigrated c = includes (MessageData.id (MPM.message c)) atLoad
             /\ (MPM.isMigrated c = true -> MPM.isToMigrate c = false)).
Proof.
  split; [| split].
  - intros st. destruct (startProcessing_trace st) as (dloop & tail & Ht & Hd & Htail).
    eexists. split; [exact Ht|]. split; [reflexivity|].
    simpl. rewrite setMessagesCalls_app.
    destruct Htail as [->| ->]; simpl; now rewrite app_nil_r.
  - intros st ids. reflexivity.
  - intros st res w1 ms w2 Hfetch Hjson atLoad loaded.
    unfold loaded. rewrite (loadMessages_loaded st res w1 ms w2 Hfetch Hjson).
    split; [rewrite map_map; simpl; apply map_id|].
    intros c Hc. apply list_elem_of_fmap in Hc as (m & -> & _). simpl.
    split; [reflexivity|]. intros ->. reflexivity.
Qed.

Lemma completeNotPending_markMigrated (w : MPM.t) :
  completeNotPending (markMigrated w) = true.
Proof. reflexivity. Qed.

Lemma completeNotPending_markPending (w : MPM.t) :
  MPM.isMigrated w = false -> completeNotPending (markPending w) = true.
Proof. unfold completeNotPending. simpl. now intros ->. Qed.

Lemma runUpdate_invariant (l l' : list MPM.t) :
  Forall (fun c => completeNotPending c = true) l ->
  Forall (fun c => MPM.isToMigrate c = true -> MPM.isMigrated c = false) l ->
  runUpdate l l' ->
  Forall (fun c => completeNotPending c = true) l'.
Proof.
  intros Hinv Hsel (j & w & Hw & Hw' & Hl').
  pose proof (lookup_lt_Some _ _ _ Hw) as Hj.
  assert (Hnot : MPM.isMigrated w = false).
  { rewrite Forall_forall in Hsel. apply Hsel; [| exact Hw'].
    eapply list_elem_of_lookup_2. exact Hw. }
  destruct Hl' as [-> | ->]; rewrite replaceAt_insert by exact Hj;
    apply Forall_insert; try exact Hinv.
  - now apply completeNotPending_markPending.
  - apply completeNotPending_markMigrated.
Qed.

(** C8, as the code has it. Candidates are loaded with the pending flag
    clear, so every list a load sets satisfies the invariant that a migrated
    candidate is not pending, and toggling keeps both.  In a run, a candidate
    is marked pending in the list set right before the publisher is called for
    it, and in no other list: in any list a run sets, a candidate that is
    pending and was not so when the run started is the one whose publication
    is about to be called.  When that call succeeds the next list set marks
    the candidate migrated and clears its pending flag at once.  Every list a
    run sets satisfies the invariant when the list the run started from does
    and no selected candidate of it is already migrated. *)
Theorem C8_migrated_implies_not_pending :
  (forall st : State,
     exists d,
       trace (snd (loadMessages st)) = trace st ++ d
       /\ Forall (Forall (fun c => MPM.isPendingMigrate c = false
                                    /\ completeNotPending c = true))
            (setMessagesCalls d))
  /\ (forall (st : State) index,
        (Forall (fun c => completeNotPending c = true) (messages (ui st)) ->
         Forall (fun c => completeNotPending c = true)
           (messages (ui (snd (toggleItem index st)))))
        /\ (Forall (fun c => MPM.isPendingMigrate c = false) (messages (ui st)) ->
            Forall (fun c => MPM.isPendingMigrate c = false)
              (messages (ui (snd (toggleItem index st))))))
  /\ (forall l j w (st : State),
        l !! j = Some w ->
        MPM.isToMigrate w = true ->
        exists dext tail,
          Forall (fun ev => isExternal ev = true) dext
          /\ trace (snd (processMessage l j st))
             = trace st
                 ++ [ESetMessages (replaceAt l j (markPending w));
                     ESignerPostNote (MPM.message w)]
                 ++ dext ++ tail
          /\ (succeeded (fst (processMessage l j st)) = true ->
              exists p,
                tail = [ESetProgress p; ESetMessages (replaceAt l j (markMigrated w))])
          /\ MPM.isMigrated (markMigrated w) = true
          /\ MPM.isPendingMigrate (markMigrated w) = false)
  /\ (forall st : State,
        Forall (fun c => completeNotPending c = true) (messages (ui st)) ->
        Forall (fun c => MPM.isToMigrate c = true -> MPM.isMigrated c = false)
          (messages (ui st)) ->
        exists d,
          trace (snd (startProcessing st)) = trace st ++ d
          /\ Forall (Forall (fun c => completeNotPending c = true)) (setMessagesCalls d))
  /\ (forall st : State,
        Forall (fun c => MPM.isPendingMigrate c = false) (messages (ui st)) ->
        exists d,
          trace (snd (startProcessing st)) = trace st ++ d
          /\ Forall
               (fun l' =>
                  Forall (fun c => MPM.isPendingMigrate c = false) l'
                  \/ exists j w,
                       messages (ui st) !! j = Some w
                       /\ MPM.isToMigrate w = true
                       /\ l' = replaceAt (messages (ui st)) j (markPending w)
                       /\ forall k c, k <> j -> l' !! k = Some c ->
                                      MPM.isPendingMigrate c = false)
               (setMessagesCalls d)).
Proof.
  split; [| split; [| split; [| split]]].
  - intros st.
    unfold loadMessages, tryCatch, bind, external, setLoadingMessage, setLoading,
      getSetting, getProgress, gets, modify. simpl.
    destruct (fetchUrl "result.json" (world st)) as [[e|res] w1]; simpl.
    { eexists. split; [reflexivity|]. constructor. }
    destruct (responseMessages res w1) as [[e|ms] w2]; simpl.
    { eexists. split; [rewrite <- app_assoc; reflexivity|]. constructor. }
    eexists. split; [rewrite <- !app_assoc; reflexivity|]. simpl.
    constructor; [| constructor].
    apply Forall_forall. intros c Hc. apply list_elem_of_fmap in Hc as (m & -> & _).
    unfold completeNotPending, parseMessage. simpl. split; [reflexivity|].
    now destruct (includes _ _).
  - intros st index. unfold toggleItem, bind, gets.
    destruct (messages (ui st) !! index) as [w|] eqn:Hw; [| split; intros H; exact H].
    simpl. rewrite replaceAt_insert by (now apply lookup_lt_Some in Hw).
    split; intros Hinv; (apply Forall_insert; [exact Hinv|]);
      rewrite Forall_forall in Hinv; apply (Hinv w); eapply list_elem_of_lookup_2; exact Hw.
  - intros l j w st Hw Hsel.
    rewrite (processMessage_selected l j w st Hw Hsel).
    destruct (contract.signerPostNote (MPM.message w) (publishState l j w st))
      as [[e|u] st4] eqn:Hcall;
      destruct (publisher_call_frame l j w st _ _ Hcall) as (dext & Hext & Ht & _);
      cbn [fst snd].
    + exists dext, []. split; [exact Hext|]. rewrite app_nil_r.
      split; [exact Ht|]. split; [discriminate | split; reflexivity].
    + destruct (recordSuccess_facts l j w st4) as (Ht' & _).
      exists dext. eexists. split; [exact Hext|].
      split; [rewrite Ht', Ht, <- !app_assoc; reflexivity|].
      split; [intros _; eexists; reflexivity | split; reflexivity].
  - intros st Hinv Hsel.
    destruct (startProcessing_trace st) as (dloop & tail & Ht & Hd & Htail).
    eexists. split; [exact Ht|]. simpl. rewrite setMessagesCalls_app.
    assert (Htl : setMessagesCalls tail = []) by (destruct Htail as [->| ->]; reflexivity).
    rewrite Htl, app_nil_r.
    eapply Forall_impl; [exact Hd|]. intros l'. now apply runUpdate_invariant.
  - intros st Hclear.
    destruct (startProcessing_trace st) as (dloop & tail & Ht & Hd & Htail).
    eexists. split; [exact Ht|]. simpl. rewrite setMessagesCalls_app.
    assert (Htl : setMessagesCalls tail = []) by (destruct Htail as [->| ->]; reflexivity).
    rewrite Htl, app_nil_r.
    eapply Forall_impl; [exact Hd|].
    intros l' (j & w & Hw & Hsel & [-> | ->]);
      pose proof (lookup_lt_Some _ _ _ Hw) as Hj.
    + right. exists j, w. repeat split; try assumption.
      intros k c Hk Hc. rewrite replaceAt_lookup_ne in Hc by assumption.
      rewrite Forall_forall in Hclear. apply Hclear.
      eapply list_elem_of_lookup_2. exact Hc.
    + left. rewrite replaceAt_insert by exact Hj.
      apply Forall_insert; [exact Hclear | reflexivity].
Qed.

End RunAndLoad.

(** * The claims on concrete runs *)

Lemma C1_publisher_called_when_selected_witness :
  (exists d,
     trace (snd (processMessage (messages (ui loadedThree)) 0 loadedThree))
     = trace loadedThree ++ d
     /\ publishCalls d = [plainMessage 1 "message" None])
  /\ (exists st',
        forLoop (processMessage (messages (ui loadedThree))) 0 3 loadedThree
        = forLoop (processMessage (messages (ui loadedThree))) 1 2 st'
        /\ finishedIDs (progress (session st')) = [] ++ [1]
        /\ messages (ui st') !! 0%nat
           = Some (MPM.mk (plainMessage 1 "message" None) true false true))
  /\ (exists d,
        trace (snd (forLoop (processMessage (take 2 (messages (ui loadedThree)))) 0 2 loadedThree))
        = trace loadedThree ++ d
        /\ publishCalls d = [plainMessage 1 "message" None]).
Proof.
  destruct (@C1_publisher_called_when_selected (scripted true exportOfThree))
    as (Hstep & Hsuccess & Hall).
  split; [| split].
  - exact (Hstep (messages (ui loadedThree)) 0%nat
             (MPM.mk (plainMessage 1 "message" None) true false false) loadedThree eq_refl).
  - refine (Hsuccess (messages (ui loadedThree)) 0%nat
              (MPM.mk (plainMessage 1 "message" None) true false false) loadedThree
              (snd (contract.signerPostNote (plainMessage 1 "message" None)
                      (publishState (messages (ui loadedThree)) 0
                         (MPM.mk (plainMessage 1 "message" None) true false false)
                         loadedThree)))
              2%nat eq_refl eq_refl _).
    vm_compute. reflexivity.
  - refine (Hall (take 2 (messages (ui loadedThree))) loadedThree
              (snd (forLoop (processMessage (take 2 (messages (ui loadedThree)))) 0 2
                      loadedThree)) _).
    vm_compute. reflexivity.
Defined.

(** C1 as stated fails: message 1 is loaded as migrated, the user selects it
    again, and the run loop calls the publisher for it. *)
Lemma C1_counterexample :
  exists c,
    messages (ui reselectedDone) !! 0%nat = Some c
    /\ MPM.isToMigrate c = true
    /\ MPM.isMigrated c = true
    /\ publishCalls (trace (snd (processMessage (messages (ui reselectedDone)) 0 reselectedDone)))
       = [MPM.message c].
Proof. eexists. split; [reflexivity|]. vm_compute. repeat split. Qed.



Lemma C3_reset_at_entry_annotation_at_load_witness :
  map MPM.message (messages (ui (snd (loadMessages (readyState true [1] false [])))))
  = exportOfThree
  /\ forall c,
       c ∈ messages (ui (snd (loadMessages (readyState true [1] false [])))) ->
       MPM.isMigrated c = includes (MessageData.id (MPM.message c)) [1]
       /\ (MPM.isMigrated c = true -> MPM.isToMigrate c = false).
Proof.
  destruct (@C3_reset_at_entry_annotation_at_load (scripted true exportOfThree))
    as (_ & _ & Hload).
  exact (Hload (readyState true [1] false []) "result.json"%string tt exportOfThree tt
           eq_refl eq_refl).
Defined.

Lemma C4_default_selection_witness :
  map MPM.message (messages (ui (snd (loadMessages (readyState true [] false [])))))
  = exportOfThree
  /\ forall c,
       c ∈ messages (ui (snd (loadMessages (readyState true [] false [])))) ->
       (MPM.isToMigrate c = true <->
          ¬ In (MessageData.id (MPM.message c)) []
          /\ (false = true \/ MessageData.type (MPM.message c) <> "service")).
Proof.
  destruct (@C4_default_selection (scripted true exportOfThree)) as (Hload & _).
  exact (Hload (readyState true [] false []) "result.json"%string tt exportOfThree tt
           eq_refl eq_refl).
Defined.

Lemma C5_failure_stops_before_transaction_witness :
  (succeeded (fst (part_000.signerPostNote lostPhotoMessage "channel"
                     (readyState true [] false [])))
   = false
   /\ forall ev,
        ev ∈ trace (snd (part_000.signerPostNote lostPhotoMessage "channel"
                           (readyState true [] false []))) ->
        isPostNote ev = false)
  /\ finishedIDs (progress (session (snd (part_000.signerPostNote lostPhotoMessage "channel"
                                            (readyState true [] false [])))))
     = [].
Proof.
  destruct (C5_failure_stops_before_transaction lostPhotoMessage "channel"
              (readyState true [] false [])) as (d & Ht & Hstop & Hsession & _).
  split; [| rewrite Hsession; reflexivity].
  change (trace (readyState true [] false []) ++ d) with d in Ht.
  rewrite Ht. apply Hstop. rewrite <- Ht.
  exists (EExternal (CFetch "photos/missing.jpg")
            (Some (mkError "Failed to fetch photos/missing.jpg"))).
  split; [vm_compute; left | reflexivity].
Defined.

(** C5 as stated fails: the chain rejects the transaction of message 42, and
    the error thrown is the one of the chain client; it does not name the
    message. *)
Lemma C5_counterexample :
  exists e,
    fst (part_000.signerPostNote (plainMessage 42 "message" None) "channel"
           (readyState false [] false []))
    = inl e
    /\ EExternal (CPostNote 7 "ipfs://note") (Some e)
       ∈ trace (snd (part_000.signerPostNote (plainMessage 42 "message" None) "channel"
                       (readyState false [] false [])))
    /\ message e = "execution reverted"
    /\ includesStr (numberToString 42) (message e) = false.
Proof.
  exists (mkError "execution reverted").
  split; [reflexivity|]. split; [| split; reflexivity].
  vm_compute. do 1 right. left.
Qed.

Lemma C7_uploader_stops_at_first_missing_address_witness :
  part_000.uploadPhotos albumPhotos [] (readyState true [] false [])
  = part_000.uploadPhotos (take 1 albumPhotos) [] (readyState true [] false [])
  /\ exists atts,
       fst (part_000.uploadPhotos albumPhotos [] (readyState true [] false [])) = inr atts
       /\ exists new, atts = [] ++ new /\ Forall2 recordOf (take 1 albumPhotos) new.
Proof.
  destruct (@C7_uploader_stops_at_first_missing_address (scripted true exportOfThree))
    as (_ & Hstop).
  destruct (Hstop (take 1 albumPhotos) (Photo.mk None None None) (drop 2 albumPhotos) []
              (readyState true [] false []))
    as (Heq & Hrecords).
  - constructor; [eexists; reflexivity | constructor].
  - reflexivity.
  - split; [exact Heq|]. eexists. split; [vm_compute; reflexivity|].
    eapply Hrecords. vm_compute. reflexivity.
Defined.

Lemma C8_migrated_implies_not_pending_witness :
  (exists d,
     trace (snd (startProcessing loadedThree)) = trace loadedThree ++ d
     /\ Forall (Forall (fun c => completeNotPending c = true)) (setMessagesCalls d))
  /\ Forall (fun c => completeNotPending c = true)
       (messages (ui (snd (toggleItem 1 loadedThree))))
  /\ (exists dext tail,
        Forall (fun ev => isExternal ev = true) dext
        /\ trace (snd (processMessage (messages (ui loadedThree)) 0 loadedThree))
           = trace loadedThree
               ++ [ESetMessages
                     (replaceAt (messages (ui loadedThree)) 0
                        (MPM.mk (plainMessage 1 "message" None) true true false));
                   ESignerPostNote (plainMessage 1 "message" None)]
               ++ dext ++ tail
        /\ exists p,
             tail = [ESetProgress p;
                     ESetMessages
                       (replaceAt (messages (ui loadedThree)) 0
                          (MPM.mk (plainMessage 1 "message" None) true false true))])
  /\ (exists d,
        trace (snd (startProcessing loadedThree)) = trace loadedThree ++ d
        /\ Forall
             (fun l' =>
                Forall (fun c => MPM.isPendingMigrate c = false) l'
                \/ exists j w,
                     messages (ui loadedThree) !! j = Some w
                     /\ MPM.isToMigrate w = true
                     /\ l' = replaceAt (messages (ui loadedThree)) j (markPending w)
                     /\ forall k c, k <> j -> l' !! k = Some c ->
                                    MPM.isPendingMigrate c = false)
             (setMessagesCalls d)).
Proof.
  destruct (@C8_migrated_implies_not_pending (scripted true exportOfThree))
    as (_ & Htoggle & Hstep & Hrun & Hpending).
  assert (Hinv : Forall (fun c => completeNotPending c = true) (messages (ui loadedThree)))
    by (repeat (constructor; [reflexivity|]); constructor).
  assert (Hclear : Forall (fun c => MPM.isPendingMigrate c = false)
                     (messages (ui loadedThree)))
    by (repeat (constructor; [reflexivity|]); constructor).
  split; [| split; [| split]].
  - apply Hrun; [exact Hinv|].
    repeat (constructor; [intros _; reflexivity|]). constructor.
  - apply (proj1 (Htoggle loadedThree 1%nat)). exact Hinv.
  - destruct (Hstep (messages (ui loadedThree)) 0%nat
                (MPM.mk (plainMessage 1 "message" None) true false false) loadedThree
                eq_refl eq_refl) as (dext & tail & Hext & Ht & Hok & _).
    exists dext, tail. split; [exact Hext|]. split; [exact Ht|].
    apply Hok. reflexivity.
  - apply Hpending. exact Hclear.
Defined.

(** C8 as stated fails: message 1 is loaded as migrated and selected again;
    the first list the run sets has it both migrated and pending. *)
Lemma C8_counterexample :
  exists l' c,
    setMessagesCalls (trace (snd (startProcessing reselectedDone))) !! 0%nat = Some l'
    /\ l' !! 0%nat = Some c
    /\ MPM.isMigrated c = true
    /\ MPM.isPendingMigrate c = true
    /\ completeNotPending c = false.
Proof. eexists. eexists. split; [vm_compute; reflexivity|]. repeat split. Qed.

Lemma C9_failed_init_leaves_uninitialized_witness :
  let st' := snd (initWithPrivateKey "bad" (readyState true [] false [])) in
  gContract (vars st') = None
  /\ signerAddress (vars st') = ""
  /\ getSignerAddress st' = (inl notInitialized, st')
  /\ (forall m, contract.signerPostNote m st' = (inl notInitialized, st')).
Proof.
  destruct (C9_failed_init_leaves_uninitialized "bad" (readyState true [] false [])
              (snd (initWithPrivateKey "bad" (readyState true [] false [])))
              (mkError "invalid private key"))
    as (_ & Hg & Ha & Hs & _ & _ & _ & Hp & _).
  - discriminate.
  - vm_compute. reflexivity.
  - repeat split; assumption.
Defined.

Lemma C10_toggle_flips_one_flag_witness :
  exists st',
    toggleItem 1 loadedThree = (inr tt, st')
    /\ messages (ui st') !! 1%nat
       = Some (MPM.mk (plainMessage 2 "service" None) true false false)
    /\ (forall j, j <> 1%nat -> messages (ui st') !! j = messages (ui loadedThree) !! j)
    /\ length (messages (ui st')) = 3%nat.
Proof.
  exact (C10_toggle_flips_one_flag loadedThree 1
           (MPM.mk (plainMessage 2 "service" None) false false false) eq_refl).
Defined.

(** * Beyond the claims *)

(** ** The signing context *)

Section SigningContext.
Context `{C : Collaborators}.

Lemma prefix_0x (k : string) : String.prefix "0x" ("0x" +:+ k) = true.
Proof.
  change ("0x" +:+ k) with (String "0" (String "x" k)). simpl.
  destruct (ascii_dec "0" "0") as [_|H]; [| now elim H].
  destruct (ascii_dec "x" "x") as [_|H]; [| now elim H].
  now destruct k.
Qed.

Lemma existsb_eqb_elem_of (x : string) (l : list string) :
  existsb (String.eqb x) l = bool_decide (x ∈ l).
Proof.
  induction l as [|y l IH]; [reflexivity|]. simpl.
  destruct (String.eqb_spec x y) as [<-|Hne]; simpl.
  - symmetry. apply bool_decide_eq_true. left.
  - rewrite IH. apply bool_decide_ext. rewrite elem_of_cons. intuition congruence.
Qed.

(** X1. A key given without the [0x] prefix is initialized as the key with
    the prefix: the two calls are the same function of the state. *)
Theorem X1_init_adds_the_prefix (privateKey : string) (st : State) :
  privateKey <> "" ->
  String.prefix "0x" privateKey = false ->
  initWithPrivateKey privateKey st = initWithPrivateKey ("0x" +:+ privateKey) st.
Proof.
  intros Hne Hpre. unfold initWithPrivateKey.
  destruct (String.eqb_spec privateKey "") as [E|_]; [contradiction|].
  rewrite Hpre, prefix_0x. reflexivity.
Qed.

(** X2. When the wallet, the contract constructor and the connection succeed
    for a key with the [0x] prefix, [initWithPrivateKey] returns, the
    contract handle is the one constructed, and [getSignerAddress] then
    returns the address of the wallet. *)
Theorem X2_init_then_getSignerAddress
    (privateKey address : string) (c : Contract) (st : State) (w1 w2 w3 : World) :
  String.prefix "0x" privateKey = true ->
  newWallet privateKey (world st) = (inr address, w1) ->
  newContract (inl privateKey) w1 = (inr c, w2) ->
  connect c w2 = (inr tt, w3) ->
  exists st',
    initWithPrivateKey privateKey st = (inr tt, st')
    /\ gContract (vars st') = Some c
    /\ characterId (vars st') = characterId (vars st)
    /\ world st' = w3
    /\ getSignerAddress st' = (inr address, st').
Proof.
  intros Hpre Hw Hc Hk. unfold initWithPrivateKey.
  destruct (String.eqb_spec privateKey "") as [->|_]; [discriminate|].
  rewrite Hpre.
  unfold tryCatch, bind, external, setSignerAddress, setGContract, modify.
  rewrite Hw. simpl. rewrite Hc. simpl. rewrite Hk. simpl.
  eexists. split; [reflexivity|]. repeat split.
Qed.

Local Arguments String.eqb : simpl never.

(** X3. [checkOperator] on an initialized context, when the character is
    fetched and read: if the owner of the character is the signer, compared
    without case, the answer is yes and the permissions are not queried;
    otherwise the answer is whether the permissions of the signer have
    [POST_NOTE]. *)
Theorem X3_checkOperator_owner_or_permission
    (c : Contract) (st : State) (res : Response) (owner : option string) (w1 w2 : World) :
  gContract (vars st) = Some c ->
  let cid := characterId (vars st) in
  let addr := signerAddress (vars st) in
  let url := "https://indexer.crossbell.io/v1/characters/" +:+ numberToString cid in
  fetchUrl url (world st) = (inr res, w1) ->
  responseOwner res w1 = (inr owner, w2) ->
  ((exists o, owner = Some o /\ toLowerCase addr = toLowerCase o) ->
     fst (checkOperator st) = inr true
     /\ world (snd (checkOperator st)) = w2
     /\ trace (snd (checkOperator st))
        = trace st ++ [EExternal (CFetch url) None; EExternal CJson None])
  /\ (~ (exists o, owner = Some o /\ toLowerCase addr = toLowerCase o) ->
      forall permissions w3,
        getOperatorPermissionsForCharacter c cid addr w2 = (inr permissions, w3) ->
        fst (checkOperator st) = inr (bool_decide ("POST_NOTE" ∈ permissions))
        /\ trace (snd (checkOperator st))
           = trace st ++ [EExternal (CFetch url) None; EExternal CJson None;
                          EExternal CGetPermissions None]).
Proof.
  intros Hg cid addr url Hfetch Howner. subst cid addr url.
  unfold checkOperator, requireContract, bind, gets, external. rewrite Hg. simpl.
  rewrite Hfetch. simpl. rewrite Howner. simpl.
  split.
  - intros (o & -> & Heq). rewrite Heq, String.eqb_refl. simpl.
    rewrite <- app_assoc. repeat split.
  - intros Hnot permissions w3 Hperm.
    assert (Hno : match owner with
                  | Some o => String.eqb (toLowerCase (signerAddress (vars st))) (toLowerCase o)
                  | None => false
                  end = false).
    { destruct owner as [o|]; [| reflexivity].
      destruct (String.eqb_spec (toLowerCase (signerAddress (vars st))) (toLowerCase o))
        as [E|_]; [| reflexivity].
      exfalso. apply Hnot. now exists o. }
    rewrite Hno. simpl. rewrite Hperm. simpl. rewrite <- !app_assoc.
    split; [f_equal; apply existsb_eqb_elem_of | reflexivity].
Qed.

End SigningContext.

Section Operators.
Context `{C : Collaborators}.

Lemma grantWithMetamask_calls (permissions : list string) (st : State) :
  vars (snd (grantWithMetamask permissions st)) = vars st
  /\ exists d,
       trace (snd (grantWithMetamask permissions st)) = trace st ++ d
       /\ (forall p o,
             EExternal (CGrantPermissions p) o ∈ d ->
             p = permissions
             /\ d = [EExternal CNewContract None; EExternal CConnect None;
                     EExternal (CGrantPermissions permissions) o])
       /\ (succeeded (fst (grantWithMetamask permissions st)) = true ->
           d = [EExternal CNewContract None; EExternal CConnect None;
                EExternal (CGrantPermissions permissions) None]).
Proof.
  unfold grantWithMetamask, getMetamaskProvider, requireContract, bind, gets, external, ret.
  destruct (gContract (vars st)) as [c|]; simpl.
  2:{ split; [reflexivity|]. exists []. rewrite app_nil_r.
      split; [reflexivity|]. split; [| discriminate]. intros p o H. inversion H. }
  destruct (newContract (inr (windowEthereum (world st))) (world st)) as [[e1|u] w1]; simpl.
  { split; [reflexivity|]. eexists. split; [reflexivity|]. split; [| discriminate].
    intros p o H. apply list_elem_of_singleton in H. discriminate. }
  destruct (connect u w1) as [[e2|[]] w2]; simpl.
  { split; [reflexivity|]. eexists. split; [rewrite <- app_assoc; reflexivity|].
    split; [| discriminate].
    intros p o H. repeat (apply elem_of_cons in H as [H|H]; [discriminate|]). inversion H. }
  destruct (grantOperatorPermissionsForCharacter u (characterId (vars st))
              (signerAddress (vars st)) permissions w2) as [[e3|[]] w3]; simpl;
    (split; [reflexivity|]); eexists; (split; [rewrite <- !app_assoc; reflexivity|]);
    (split; [| try discriminate; reflexivity]);
    intros p o H; repeat (apply elem_of_cons in H as [H|H]; [try discriminate|]);
    try (inversion H; fail); inversion H; subst; split; reflexivity.
Qed.

(** X4. [addOperator] and [removeOperator] leave the module variables as they
    are: the contract built on the wallet provider does not replace
    [gContract].  Permissions are granted only after that contract was built
    and connected, in one call. [addOperator] grants [POST_NOTE];
    [removeOperator] makes no revoking call of its own, it grants the empty
    list. *)
Theorem X4_operators_grant_once_after_connecting (st : State) :
  (vars (snd (addOperator st)) = vars st
   /\ exists d,
        trace (snd (addOperator st)) = trace st ++ d
        /\ (forall p o,
              EExternal (CGrantPermissions p) o ∈ d ->
              p = ["POST_NOTE"]
              /\ d = [EExternal CNewContract None; EExternal CConnect None;
                      EExternal (CGrantPermissions ["POST_NOTE"]) o])
        /\ (succeeded (fst (addOperator st)) = true ->
            d = [EExternal CNewContract None; EExternal CConnect None;
                 EExternal (CGrantPermissions ["POST_NOTE"]) None]))
  /\ (vars (snd (removeOperator st)) = vars st
      /\ exists d,
           trace (snd (removeOperator st)) = trace st ++ d
           /\ (forall p o,
                 EExternal (CGrantPermissions p) o ∈ d ->
                 p = []
                 /\ d = [EExternal CNewContract None; EExternal CConnect None;
                         EExternal (CGrantPermissions []) o])
           /\ (succeeded (fst (removeOperator st)) = true ->
               d = [EExternal CNewContract None; EExternal CConnect None;
                    EExternal (CGrantPermissions []) None])).
Proof. split; apply grantWithMetamask_calls. Qed.

End Operators.

(** ** Note Publisher and operator check: errors are thrown as they come *)

Section FailStop.
Context `{C : Collaborators}.

(** X5. Both revisions of [signerPostNote] stop at the first call to a
    collaborator that fails: nothing is called after it, nothing is called
    again, and the error thrown is the error of that call, as it came. *)
Theorem X5_signerPostNote_stops_at_first_failure (m : MessageData.t) (channelName : string)
    (st : State) :
  (exists d,
     trace (snd (contract.signerPostNote m st)) = trace st ++ d
     /\ forall a ev b,
          d = a ++ ev :: b -> isFailure ev = true ->
          b = [] /\ exists c e, ev = EExternal c (Some e)
                                /\ fst (contract.signerPostNote m st) = inl e)
  /\ (exists d,
        trace (snd (part_000.signerPostNote m channelName st)) = trace st ++ d
        /\ forall a ev b,
             d = a ++ ev :: b -> isFailure ev = true ->
             b = [] /\ exists c e, ev = EExternal c (Some e)
                                   /\ fst (part_000.signerPostNote m channelName st) = inl e).
Proof.
  split.
  - destruct (failStop_contract_signerPostNote m st) as (d & Ht & Hs).
    exists d. split; [exact Ht|]. intros a ev b. now apply stopsAtFailure_last.
  - destruct (failStop_part_000_signerPostNote m channelName st) as (d & Ht & Hs).
    exists d. split; [exact Ht|]. intros a ev b. now apply stopsAtFailure_last.
Qed.

(** X6. [checkOperator] never answers when a lookup failed: if the fetch of
    the character, the reading of its owner or the query of the permissions
    fails, the error of that call is thrown, not [false] returned, and no
    further lookup is made. *)
Theorem X6_checkOperator_throws_on_failed_lookup (st : State) :
  exists d,
    trace (snd (checkOperator st)) = trace st ++ d
    /\ forall a ev b,
         d = a ++ ev :: b -> isFailure ev = true ->
         b = [] /\ exists c e, ev = EExternal c (Some e) /\ fst (checkOperator st) = inl e.
Proof.
  destruct (failStop_checkOperator st) as (d & Ht & Hs).
  exists d. split; [exact Ht|]. intros a ev b. now apply stopsAtFailure_last.
Qed.

(** X7. The revision of [signerPostNote] the page imports, like the later
    one: when a media retrieval, a media upload or the persistence of the note
    fails, it fails without having called [postNote]; it calls [postNote] at
    most once; when the transaction fails the error of the chain client is
    thrown as it is. *)
Theorem X7_contract_signerPostNote_transaction_last (m : MessageData.t) (st : State) :
  exists d,
    trace (snd (contract.signerPostNote m st)) = trace st ++ d
    /\ ((exists ev, ev ∈ d /\ isTransferFailure ev = true) ->
          succeeded (fst (contract.signerPostNote m st)) = false
          /\ forall ev, ev ∈ d -> isPostNote ev = false)
    /\ (length (filter (fun ev => isPostNote ev = true) d) <= 1)%nat
    /\ (forall cid uri e,
          EExternal (CPostNote cid uri) (Some e) ∈ d ->
          fst (contract.signerPostNote m st) = inl e).
Proof.
  destruct (publishes_contract_signerPostNote m st) as (d & Ht & Hshape).
  exists d. split; [exact Ht|]. split; [| split].
  - now apply transactionShape_no_transfer_failure.
  - now apply transactionShape_once with (r := fst (contract.signerPostNote m st)).
  - intros cid uri e. now apply transactionShape_error.
Qed.

End FailStop.

(** ** Note Publisher: the media steps and the note *)

Section NoteContent.
Context `{C : Collaborators}.

Lemma mediaStep_ret {A} (a : A) : mediaStep (ret a).
Proof.
  intros st. split; [reflexivity|]. exists []. simpl. rewrite app_nil_r.
  repeat split; constructor.
Qed.

Lemma mediaStep_external {A} (c : Call) (op : World -> result A * World) :
  isMediaCall (EExternal c None) = true -> mediaStep (external c op).
Proof.
  intros Hc st. unfold external. destruct (op (world st)) as [r w]. simpl.
  split; [reflexivity|]. exists [EExternal c (failureOf r)]. split; [reflexivity|]. split.
  - constructor; [| constructor]. destruct c; try discriminate; reflexivity.
  - destruct r as [e|a]; simpl; split; intros H; try discriminate.
    + inversion H; subst. discriminate.
    + constructor; [reflexivity | constructor].
    + reflexivity.
Qed.

Lemma mediaStep_bind {A B} (m : M A) (f : A -> M B) :
  mediaStep m -> (forall a, mediaStep (f a)) -> mediaStep (bind m f).
Proof.
  intros Hm Hf st. unfold bind.
  destruct (Hm st) as (Hv1 & d1 & Ht1 & Hm1 & Hs1).
  destruct (m st) as [[e|a] st1]; simpl in *.
  - split; [exact Hv1|]. exists d1. repeat split; try assumption; apply Hs1.
  - destruct (Hf a st1) as (Hv2 & d2 & Ht2 & Hm2 & Hs2).
    split; [congruence|]. exists (d1 ++ d2). rewrite Ht2, Ht1, app_assoc.
    split; [reflexivity|]. split; [apply Forall_app; split; assumption|].
    rewrite Forall_app, Hs2. split; [intros H; split; [now apply Hs1 | exact H] | tauto].
Qed.

Lemma mediaStep_uploadMedia url declared w h : mediaStep (uploadMedia url declared w h).
Proof.
  unfold uploadMedia.
  repeat (apply mediaStep_bind; [now apply mediaStep_external | intros ?]).
  apply mediaStep_ret.
Qed.

Lemma mediaStep_uploadFileAttachment m acc : mediaStep (uploadFileAttachment m acc).
Proof.
  unfold uploadFileAttachment. destruct (truthy (MessageData.file m)).
  - apply mediaStep_bind; [apply mediaStep_uploadMedia | intros ?; apply mediaStep_ret].
  - apply mediaStep_ret.
Qed.

Lemma mediaStep_uploadPhotos photos acc : mediaStep (part_000.uploadPhotos photos acc).
Proof.
  revert acc. induction photos as [|p photos IH]; intros acc; simpl.
  - apply mediaStep_ret.
  - destruct (truthy (Photo.photo p)); [| apply mediaStep_ret].
    apply mediaStep_bind; [apply mediaStep_uploadMedia | intros ?; apply IH].
Qed.

Lemma mediaStep_photos (m : MessageData.t) :
  mediaStep (match MessageData.photos m with
             | Some photos => part_000.uploadPhotos photos []
             | None => ret []
             end).
Proof. destruct (MessageData.photos m); [apply mediaStep_uploadPhotos | apply mediaStep_ret]. Qed.

(** The note the later revision builds from the attachments and the date. *)
Lemma part_000_signerPostNote_steps (m : MessageData.t) (channelName : string) (st : State) :
  part_000.signerPostNote m channelName st
  = match gContract (vars st) with
    | None => (inl notInitialized, st)
    | Some c =>
        match (match MessageData.photos m with
               | Some photos => part_000.uploadPhotos photos []
               | None => ret []
               end) st with
        | (inl e, st1) => (inl e, st1)
        | (inr atts, st1) =>
            match uploadFileAttachment m atts st1 with
            | (inl e, st2) => (inl e, st2)
            | (inr atts', st2) =>
                match toISOString (MessageData.date m) with
                | inl e => (inl e, st2)
                | inr date_published =>
                    let note :=
                      NoteMetadata.mk "note" ["T2C"; "Telegram"]%string (ParseMessageText m)
                        atts' (Some date_published)
                        (Some (if String.eqb channelName "" then []
                               else ["https://t.me/" +:+ channelName +:+ "/"
                                       +:+ numberToString (MessageData.id m)])) in
                    (noteIPFSUri <- external (CUploadJson note) (uploadJson note);;
                     cid <- gets (fun st => characterId (vars st));;
                     external (CPostNote cid noteIPFSUri) (postNote c cid noteIPFSUri)) st2
                end
            end
        end
    end.
Proof.
  unfold part_000.signerPostNote, requireContract.
  unfold bind at 1. unfold bind at 1. unfold gets at 1.
  destruct (gContract (vars st)) as [c|]; [| reflexivity]. cbn [ret].
  unfold bind at 1.
  destruct (match MessageData.photos m with
            | Some photos => part_000.uploadPhotos photos []
            | None => ret []
            end st) as [[e1|atts] st1]; [reflexivity|].
  unfold bind at 1.
  destruct (uploadFileAttachment m atts st1) as [[e2|atts'] st2]; [reflexivity|].
  unfold bind at 1, liftResult.
  destruct (toISOString (MessageData.date m)) as [e|dp]; reflexivity.
Qed.

(** X8. A message whose date [Date] cannot read: the later revision of
    [signerPostNote] fails, after the media steps and before the note is
    persisted.  Its calls are media calls only, so the media uploaded are left
    without a note; when the context is initialized and every media call
    succeeded, the error thrown is the one of [toISOString]. *)
Theorem X8_invalid_date_fails_after_the_uploads
    (m : MessageData.t) (channelName : string) (st : State) (e : Error) :
  toISOString (MessageData.date m) = inl e ->
  exists d,
    trace (snd (part_000.signerPostNote m channelName st)) = trace st ++ d
    /\ Forall (fun ev => isMediaCall ev = true) d
    /\ succeeded (fst (part_000.signerPostNote m channelName st)) = false
    /\ (gContract (vars st) <> None ->
        Forall (fun ev => isFailure ev = false) d ->
        fst (part_000.signerPostNote m channelName st) = inl e).
Proof.
  intros Hdate. rewrite part_000_signerPostNote_steps, Hdate.
  destruct (gContract (vars st)) as [c|]; simpl.
  2:{ exists []. rewrite app_nil_r.
      split; [reflexivity|]. split; [constructor|]. split; [reflexivity | congruence]. }
  destruct (mediaStep_photos m st) as (_ & d1 & Ht1 & Hm1 & Hs1).
  destruct (match MessageData.photos m with
            | Some photos => part_000.uploadPhotos photos []
            | None => ret []
            end st) as [[e1|atts] st1]; simpl in *.
  { exists d1. repeat split; try assumption. intros _ Hok. apply Hs1 in Hok. discriminate. }
  destruct (mediaStep_uploadFileAttachment m atts st1) as (_ & d2 & Ht2 & Hm2 & Hs2).
  destruct (uploadFileAttachment m atts st1) as [[e2|atts'] st2]; simpl in *.
  { exists (d1 ++ d2). rewrite Ht2, Ht1, app_assoc.
    repeat split; [apply Forall_app; split; assumption|].
    intros _ Hok. apply Forall_app in Hok as [_ Hok]. apply Hs2 in Hok. discriminate. }
  exists (d1 ++ d2). rewrite Ht2, Ht1, app_assoc.
  repeat split. apply Forall_app; split; assumption.
Qed.

Lemma uploadPhotos_records_any photos acc (st st' : State) atts :
  part_000.uploadPhotos photos acc st = (inr atts, st') ->
  exists new, atts = acc ++ new /\ Forall2 recordOf (beforeFirstMissing photos) new.
Proof.
  revert acc st. induction photos as [|q photos IH]; intros acc st; simpl.
  - intros H. inversion H; subst. exists []. rewrite app_nil_r. split; constructor.
  - destruct (truthy (Photo.photo q)) as [url|] eqn:Hq.
    2:{ intros H. inversion H; subst. exists []. rewrite app_nil_r. split; constructor. }
    unfold bind.
    destruct (uploadMedia url None (Photo.width q) (Photo.height q) st)
      as [[e|a] st1] eqn:Hm; [discriminate|].
    intros H. destruct (IH _ _ H) as (new & -> & Hnew).
    apply uploadMedia_record in Hm as (Hname & Halt & Hw & Hh).
    exists (a :: new). rewrite <- app_assoc. split; [reflexivity|].
    constructor; [| exact Hnew].
    split; [exists url; repeat split; assumption | split; assumption].
Qed.

Lemma uploadMedia_type url declared w h (st st' : State) (a : Attachment.t) :
  uploadMedia url declared w h st = (inr a, st') ->
  forall t, truthy declared = Some t -> Attachment.mime_type a = t.
Proof.
  unfold uploadMedia, bind, external, ret.
  destruct (fetchUrl url (world st)) as [[e1|res] w1]; simpl; [discriminate|].
  destruct (responseBlob res w1) as [[e2|blob] w2]; simpl; [discriminate|].
  destruct (uploadFile blob w2) as [[e3|uri] w3]; simpl; [discriminate|].
  intros H t Ht. inversion H; subst. simpl. unfold orElse. now rewrite Ht.
Qed.

Lemma uploadFileAttachment_records m acc (st st' : State) atts :
  uploadFileAttachment m acc st = (inr atts, st') ->
  exists new, atts = acc ++ new /\ fileRecords m new.
Proof.
  unfold uploadFileAttachment, fileRecords.
  destruct (truthy (MessageData.file m)) as [file|].
  - unfold bind.
    destruct (uploadMedia file (MessageData.mime_type m) (MessageData.width m)
                (MessageData.height m) st) as [[e|a] st1] eqn:Hm; [discriminate|].
    intros H. inversion H; subst. exists [a]. split; [reflexivity|].
    exists a. split; [reflexivity|].
    pose proof (uploadMedia_type _ _ _ _ _ _ _ Hm) as Hty.
    apply uploadMedia_record in Hm as (Hname & _ & Hw & Hh). auto.
  - intros H. inversion H; subst. exists []. now rewrite app_nil_r.
Qed.

(** X9. What the later revision of [signerPostNote] has done when it
    returns: after media calls only, it persisted one note and submitted the
    pointer [uploadJson] returned for it to the character of the module, in
    that order and as its last two calls.  The note has the formatted text of
    the message, the date as [toISOString] gave it, one link to the message in
    the channel, or none when the channel name is empty, and as attachments
    the records of the photos before the first one without an address
    followed by the record of the file, whose declared type, when it has one,
    is the type recorded. *)
Theorem X9_note_published_by_the_later_revision
    (m : MessageData.t) (channelName : string) (st st' : State) :
  part_000.signerPostNote m channelName st = (inr tt, st') ->
  exists pre note uri,
    trace st'
    = trace st ++ pre
        ++ [EExternal (CUploadJson note) None;
            EExternal (CPostNote (characterId (vars st)) uri) None]
    /\ Forall (fun ev => isMediaCall ev = true) pre
    /\ (exists w w', uploadJson note w = (inr uri, w'))
    /\ NoteMetadata.type note = "note"
    /\ NoteMetadata.sources note = ["T2C"; "Telegram"]
    /\ NoteMetadata.content note = ParseMessageText m
    /\ NoteMetadata.external_urls note
       = Some (if String.eqb channelName "" then []
               else ["https://t.me/" +:+ channelName +:+ "/"
                       +:+ numberToString (MessageData.id m)])
    /\ (exists date_published,
          toISOString (MessageData.date m) = inr date_published
          /\ NoteMetadata.date_published note = Some date_published)
    /\ (exists photoRecords records,
          NoteMetadata.attachments note = photoRecords ++ records
          /\ Forall2 recordOf (beforeFirstMissing (default [] (MessageData.photos m)))
               photoRecords
          /\ fileRecords m records)
    /\ vars st' = vars st.
Proof.
  rewrite part_000_signerPostNote_steps.
  destruct (gContract (vars st)) as [c|]; [| discriminate].
  destruct (mediaStep_photos m st) as (Hv1 & d1 & Ht1 & Hm1 & _).
  destruct (match MessageData.photos m with
            | Some photos => part_000.uploadPhotos photos []
            | None => ret []
            end st) as [[e1|atts] st1] eqn:Hphotos; [discriminate|].
  destruct (mediaStep_uploadFileAttachment m atts st1) as (Hv2 & d2 & Ht2 & Hm2 & _).
  destruct (uploadFileAttachment m atts st1) as [[e2|atts'] st2] eqn:Hfile; [discriminate|].
  cbn [fst snd] in *.
  destruct (toISOString (MessageData.date m)) as [e|dp]; [discriminate|].
  cbv zeta. unfold bind, external, gets.
  match goal with |- context [uploadJson ?n (world st2)] => set (note := n) end.
  destruct (uploadJson note (world st2)) as [[e3|uri] w3] eqn:Hjson; [discriminate|].
  cbn [world vars withTrace withWorld].
  destruct (postNote c (characterId (vars st2)) uri w3) as [[e4|[]] w4]; [discriminate|].
  intros H. inversion H; subst st'; clear H.
  exists (d1 ++ d2), note, uri. cbn [trace vars withTrace withWorld].
  rewrite Hv2, Hv1, Ht2, Ht1, <- !app_assoc.
  split; [reflexivity|]. split; [apply Forall_app; split; assumption|].
  split; [exists (world st2), w3; exact Hjson|].
  do 4 (split; [reflexivity|]).
  split; [exists dp; split; reflexivity|].
  split; [| reflexivity].
  apply uploadFileAttachment_records in Hfile as (records & -> & Hrecords).
  exists atts, records. split; [reflexivity|]. split; [| exact Hrecords].
  destruct (MessageData.photos m) as [photos|]; simpl.
  - apply uploadPhotos_records_any in Hphotos as (new & -> & Hnew). exact Hnew.
  - inversion Hphotos; subst. constructor.
Qed.

End NoteContent.

(** ** File names *)

Lemma splitPop_acc (s cur : string) :
  splitPop s cur = if hasSlash s then splitPop s "" else cur +:+ s.
Proof.
  revert cur. induction s as [|c s IH]; intros cur; simpl.
  - now rewrite append_empty_r.
  - destruct (Ascii.eqb c "/") eqn:Hc; simpl; [reflexivity|].
    change ("" +:+ String c "") with (String c "").
    rewrite (IH (cur +:+ String c "")), (IH (String c "")).
    destruct (hasSlash s); [reflexivity|].
    now rewrite append_assoc.
Qed.

Lemma hasSlash_app (a b : string) : hasSlash (a +:+ b) = hasSlash a || hasSlash b.
Proof.
  induction a as [|c a IH]; [reflexivity|].
  change (String c a +:+ b) with (String c (a +:+ b)). simpl.
  now rewrite IH, orb_assoc.
Qed.

Lemma splitPop_app_slash (dir name cur : string) :
  splitPop (dir +:+ "/" +:+ name) cur = splitPop name "".
Proof.
  revert cur. induction dir as [|c dir IH]; intros cur.
  - reflexivity.
  - change (String c dir +:+ "/" +:+ name) with (String c (dir +:+ "/" +:+ name)).
    simpl. destruct (Ascii.eqb c "/"); apply IH.
Qed.

(** X10. The file name of an attachment, [address.split("/").pop()]: an
    address without a slash is its own file name; the file name of
    [dir/name] is the file name of [name], whatever [dir] is; and a file name
    never has a slash. *)
Theorem X10_file_name_is_the_last_segment :
  (forall s, hasSlash s = false -> splitPop s "" = s)
  /\ (forall dir name, splitPop (dir +:+ "/" +:+ name) "" = splitPop name "")
  /\ (forall s, hasSlash (splitPop s "") = false).
Proof.
  split; [| split].
  - intros s Hs. rewrite splitPop_acc, Hs. reflexivity.
  - intros dir name. apply splitPop_app_slash.
  - intros s. induction s as [|c s IH]; [reflexivity|]. simpl.
    destruct (Ascii.eqb c "/") eqn:Hc; [exact IH|].
    rewrite splitPop_acc. destruct (hasSlash s) eqn:Hs; [exact IH|].
    rewrite hasSlash_app, Hs. simpl. now rewrite Hc.
Qed.

Lemma X10_file_name_is_the_last_segment_witness :
  splitPop "voice.ogg" "" = "voice.ogg"
  /\ splitPop ("chats/files" +:+ "/" +:+ "voice.ogg") "" = "voice.ogg".
Proof.
  destruct X10_file_name_is_the_last_segment as (Hplain & Hdir & _).
  split.
  - apply Hplain. reflexivity.
  - rewrite Hdir. apply Hplain. reflexivity.
Defined.

(** ** Text Formatter, on a message in two parts *)

(** X11. Formatting is compositional: the text of a content message whose
    entities are [es1] followed by [es2] is the text for [es1] followed by
    the text for [es2]; no markup spans two entities. *)
Theorem X11_format_of_concatenated_entities
    (m : MessageData.t) (es1 es2 : list TextEntity.t) :
  MessageData.type m <> "service" ->
  ParseMessageText (withEntities m (es1 ++ es2))
  = ParseMessageText (withEntities m es1) +:+ ParseMessageText (withEntities m es2).
Proof.
  intros Hm. unfold ParseMessageText, withEntities. simpl.
  destruct (String.eqb_spec (MessageData.type m) "service") as [E|_]; [contradiction|].
  rewrite fold_left_app, !fold_left_markup. reflexivity.
Qed.

Lemma X11_format_of_concatenated_entities_witness :
  ParseMessageText
    (withEntities (plainMessage 1 "message" None)
       ([TextEntity.mk "bold" "a" None] ++ [TextEntity.mk "link" "b" None]))
  = "**a**" +:+ "[b](b)".
Proof.
  rewrite (X11_format_of_concatenated_entities (plainMessage 1 "message" None)
             [TextEntity.mk "bold" "a" None] [TextEntity.mk "link" "b" None]).
  - reflexivity.
  - discriminate.
Defined.

(** ** The page: toggling twice, a load that fails *)

Section Page.
Context `{C : Collaborators}.

(** X12. Toggling the same list item twice gives back the list. *)
Theorem X12_toggle_twice_restores_the_list (st : State) (index : nat) (w : MPM.t) :
  messages (ui st) !! index = Some w ->
  messages (ui (snd (toggleItem index (snd (toggleItem index st))))) = messages (ui st).
Proof.
  intros Hw. pose proof (lookup_lt_Some _ _ _ Hw) as Hi.
  unfold toggleItem at 2. unfold bind, gets. rewrite Hw. simpl.
  unfold toggleItem, bind, gets. simpl.
  rewrite (replaceAt_lookup _ _ _ Hi). simpl.
  rewrite negb_involutive.
  rewrite replaceAt_insert by (rewrite replaceAt_length; exact Hi).
  rewrite replaceAt_insert by exact Hi.
  rewrite list_insert_insert_eq. apply list_insert_id.
  rewrite Hw. now destruct w.
Qed.

(** X13. A load that fails, at the fetch of the export or at the reading of
    its messages: [loadMessages] does not throw; the list on screen and the
    session store are as before, no list is set, the message of the error is
    in [errorMessage], the error dialog is shown and the loading overlay is
    closed. *)
Theorem X13_failed_load_keeps_the_list (st : State) (e : Error) :
  (exists w1, fetchUrl "result.json" (world st) = (inl e, w1))
  \/ (exists res w1 w2,
        fetchUrl "result.json" (world st) = (inr res, w1)
        /\ responseMessages res w1 = (inl e, w2)) ->
  exists st' d,
    loadMessages st = (inr tt, st')
    /\ trace st' = trace st ++ d
    /\ setMessagesCalls d = []
    /\ messages (ui st') = messages (ui st)
    /\ session st' = session st
    /\ errorMessage (ui st') = message e
    /\ isShowingError (ui st') = true
    /\ isLoading (ui st') = false.
Proof.
  intros [(w1 & Hfetch)|(res & w1 & w2 & Hfetch & Hjson)];
    unfold loadMessages, tryCatch, bind, external, setLoadingMessage, setLoading,
      setErrorMessage, setShowingError, getSetting, getProgress, gets, modify; simpl;
    rewrite Hfetch; simpl; [| rewrite Hjson; simpl];
    eexists; eexists; (split; [reflexivity|]); simpl;
    (split; [rewrite <- ?app_assoc; reflexivity|]); repeat split.
Qed.

End Page.

(** ** Runs: to the end, with nothing selected, without a signing context *)

Section Runs.
Context `{C : Collaborators}.

(** The loop over candidates that are not selected changes the loading
    message at most. *)
Lemma forLoop_skips (l : list MPM.t) (n : nat) :
  forall i (st : State),
    (i + n <= length l)%nat ->
    (forall k w, (i <= k < i + n)%nat -> l !! k = Some w -> MPM.isToMigrate w = false) ->
    exists st',
      forLoop (processMessage l) i n st = (inr tt, st')
      /\ trace st' = trace st
      /\ world st' = world st
      /\ vars st' = vars st
      /\ session st' = session st
      /\ messages (ui st') = messages (ui st)
      /\ isLoading (ui st') = isLoading (ui st)
      /\ isShowingError (ui st') = isShowingError (ui st)
      /\ errorMessage (ui st') = errorMessage (ui st)
      /\ location (ui st') = location (ui st).
Proof.
  induction n as [|n IH]; intros i st Hi Hskip; simpl.
  - exists st. repeat split.
  - destruct (lookup_lt_is_Some_2 l i ltac:(lia)) as [w Hw].
    unfold bind.
    rewrite (processMessage_skipped l i w st Hw (Hskip i w ltac:(lia) Hw)).
    destruct (IH (S i) (snd (setLoadingMessage (processingText l i) st)) ltac:(lia))
      as (st' & Hrun & Hfacts).
    { intros k w' Hk. apply Hskip. lia. }
    exists st'. split; [exact Hrun|]. exact Hfacts.
Qed.

(** X14. A run whose loop runs to its end navigates to [/finish] as its
    last call and closes the loading overlay; the completed set is then the
    identifiers of the candidates that were selected, in list order, and of no
    other, whatever it held before; the error dialog is as it was. *)
Theorem X14_completed_run_records_the_selected (st st1 : State) :
  forLoop (processMessage (messages (ui st))) 0 (length (messages (ui st)))
    (snd (runEntry st)) = (inr tt, st1) ->
  exists st' d,
    startProcessing st = (inr tt, st')
    /\ trace st' = trace st ++ d
    /\ last d = Some (ENavigate "/finish")
    /\ publishCalls d = map MPM.message (selected (messages (ui st)))
    /\ finishedIDs (progress (session st'))
       = map MessageData.id (map MPM.message (selected (messages (ui st))))
    /\ location (ui st') = "/finish"
    /\ isLoading (ui st') = false
    /\ isShowingError (ui st') = isShowingError (ui st)
    /\ errorMessage (ui st') = errorMessage (ui st).
Proof.
  intros Hloop.
  destruct (forLoop_prefix (messages (ui st)) (length (messages (ui st))) _ _
              (le_n _) Hloop)
    as (d & Ht & Hp & Hf & _ & _ & _ & Ha & Hb & _).
  destruct (runEntry_facts st) as (Ht0 & Hp0 & _ & _ & _ & Ha0 & Hb0 & _).
  rewrite take_ge in Hp by lia.
  eexists. exists ([ESetProgress (mkProgress [] (otherFields (progress (session st))))]
                     ++ d ++ [ENavigate "/finish"]).
  split; [rewrite startProcessing_outcome, Hloop; reflexivity|]. simpl.
  split; [rewrite Ht, Ht0, <- !app_assoc; reflexivity|].
  split; [rewrite app_comm_cons; apply last_snoc|].
  split; [rewrite publishCalls_app, Hp; simpl; now rewrite app_nil_r|].
  split; [rewrite Hf, Hp0, Hp; reflexivity|].
  repeat split; congruence.
Qed.

(** X15. A run with no candidate selected, the empty list included, calls no
    collaborator and cannot fail: it empties the completed set, navigates to
    [/finish], and leaves the list and the world as they were. *)
Theorem X15_run_with_nothing_selected (st : State) :
  Forall (fun c => MPM.isToMigrate c = false) (messages (ui st)) ->
  exists st',
    startProcessing st = (inr tt, st')
    /\ trace st'
       = trace st ++ [ESetProgress (mkProgress [] (otherFields (progress (session st))));
                      ENavigate "/finish"]
    /\ world st' = world st
    /\ vars st' = vars st
    /\ messages (ui st') = messages (ui st)
    /\ finishedIDs (progress (session st')) = []
    /\ location (ui st') = "/finish"
    /\ isLoading (ui st') = false.
Proof.
  intros Hnone.
  destruct (forLoop_skips (messages (ui st)) (length (messages (ui st))) 0
              (snd (runEntry st)) ltac:(lia))
    as (st1 & Hloop & Ht & Hw & Hv & Hs & Hm & _).
  { intros k w _ Hk. rewrite Forall_forall in Hnone. apply Hnone.
    eapply list_elem_of_lookup_2. exact Hk. }
  destruct (runEntry_facts st) as (Ht0 & Hp0 & _ & Hv0 & Hm0 & _).
  eexists. split; [rewrite startProcessing_outcome, Hloop; reflexivity|]. simpl.
  rewrite Ht, Ht0, Hw, Hv, Hs, Hm, <- app_assoc. repeat split.
Qed.

(** X16. The list a completed run leaves on screen is the list the handler
    closed over with one entry changed: the last selected candidate is marked
    migrated, and every other entry, the candidates published earlier in the
    run included, is as it was before the run. *)
Theorem X16_completed_run_shows_only_the_last_as_migrated
    (l : list MPM.t) (st st' : State) (j : nat) (w : MPM.t) :
  forLoop (processMessage l) 0 (length l) st = (inr tt, st') ->
  l !! j = Some w ->
  MPM.isToMigrate w = true ->
  (forall k w', (j < k)%nat -> l !! k = Some w' -> MPM.isToMigrate w' = false) ->
  messages (ui st') !! j = Some (MPM.mk (MPM.message w) (MPM.isToMigrate w) false true)
  /\ forall k, k <> j -> messages (ui st') !! k = l !! k.
Proof.
  intros Hloop Hw Hsel Hlast. pose proof (lookup_lt_Some _ _ _ Hw) as Hj.
  replace (length l) with (j + S (length l - S j))%nat in Hloop by lia.
  rewrite forLoop_split in Hloop.
  destruct (forLoop (processMessage l) 0 j st) as [[e|[]] s1]; [discriminate|].
  simpl in Hloop. unfold bind at 1 in Hloop.
  rewrite (processMessage_selected l j w s1 Hw Hsel) in Hloop.
  destruct (contract.signerPostNote (MPM.message w) (publishState l j w s1))
    as [[e|u] st4]; [discriminate|].
  destruct (forLoop_skips l (length l - S j) (S j) (recordSuccess l j w st4) ltac:(lia))
    as (st'' & Hrest & _ & _ & _ & _ & Hm & _).
  { intros k w' Hk. apply Hlast. lia. }
  rewrite Hrest in Hloop. inversion Hloop; subst st''.
  destruct (recordSuccess_facts l j w st4) as (_ & _ & _ & _ & Hm' & _).
  rewrite Hm, Hm'. split; [now apply replaceAt_lookup|].
  intros k Hk. now apply replaceAt_lookup_ne.
Qed.

(** X17. A run started without a signing context stops at the first selected
    candidate with [Contract not initialized.] in the error dialog.  No
    collaborator was called, yet the completed set it found has already been
    emptied, and the candidate is left marked pending. *)
Theorem X17_run_without_context_empties_the_record
    (st : State) (j : nat) (w : MPM.t) :
  gContract (vars st) = None ->
  messages (ui st) !! j = Some w ->
  MPM.isToMigrate w = true ->
  (forall k w', (k < j)%nat -> messages (ui st) !! k = Some w' -> MPM.isToMigrate w' = false) ->
  exists st',
    startProcessing st = (inr tt, st')
    /\ trace st'
       = trace st
           ++ [ESetProgress (mkProgress [] (otherFields (progress (session st))));
               ESetMessages (replaceAt (messages (ui st)) j (markPending w));
               ESignerPostNote (MPM.message w)]
    /\ world st' = world st
    /\ finishedIDs (progress (session st')) = []
    /\ errorMessage (ui st') = "Contract not initialized."
    /\ isShowingError (ui st') = true
    /\ isLoading (ui st') = false
    /\ location (ui st') = location (ui st)
    /\ messages (ui st') !! j
       = Some (MPM.mk (MPM.message w) (MPM.isToMigrate w) true (MPM.isMigrated w)).
Proof.
  set (l := messages (ui st)). intros Hg Hw Hsel Hfirst.
  pose proof (lookup_lt_Some _ _ _ Hw) as Hj.
  destruct (runEntry_facts st) as (Ht0 & Hp0 & _ & Hv0 & _ & _ & _ & Hloc0).
  destruct (forLoop_skips l j 0 (snd (runEntry st)) ltac:(lia))
    as (sj & Hpre & Htj & Hwj & Hvj & Hsj & _ & _ & _ & _ & Hlocj).
  { intros k w' Hk. apply Hfirst. lia. }
  destruct (publishState_facts l j w sj) as (Htp & Hvp & Hsp & Hmp & _ & _ & _ & Hlocp).
  assert (Hcall : contract.signerPostNote (MPM.message w) (publishState l j w sj)
                  = (inl notInitialized, publishState l j w sj)).
  { apply uninitialized_calls_fail. rewrite Hvp, Hvj, Hv0. exact Hg. }
  assert (Hloop : forLoop (processMessage l) 0 (length l) (snd (runEntry st))
                  = (inl notInitialized, publishState l j w sj)).
  { replace (length l) with (j + S (length l - S j))%nat by lia.
    rewrite forLoop_split, Hpre. simpl. unfold bind at 1.
    now rewrite (processMessage_selected l j w sj Hw Hsel), Hcall. }
  assert (Hwp : world (publishState l j w sj) = world sj) by reflexivity.
  eexists. split; [rewrite startProcessing_outcome; fold l; rewrite Hloop; reflexivity|].
  remember (publishState l j w sj) as sp eqn:Esp. clear Esp Hcall Hloop.
  simpl. rewrite Htp, Htj, Ht0, Hsp, Hsj, Hp0, Hmp, Hlocp, Hlocj, Hloc0, Hwp, Hwj,
    <- !app_assoc.
  do 7 (split; [reflexivity|]).
  now apply replaceAt_lookup.
Qed.

End Runs.

(** ** Load, then run *)

Section LoadThenRun.
Context `{C : Collaborators}.

Lemma selected_parseMessage (p : Progress) (s : Setting) (ms : list MessageData.t) :
  map MPM.message (selected (map (parseMessage p s) ms))
  = filter (fun m => selectedAtLoad (finishedIDs p) (includeService s) m = true) ms.
Proof.
  induction ms as [|m ms IH]; [reflexivity|].
  simpl. unfold selected in *. rewrite !filter_cons.
  change (MPM.isToMigrate (parseMessage p s m))
    with (selectedAtLoad (finishedIDs p) (includeService s) m).
  destruct (decide (selectedAtLoad (finishedIDs p) (includeService s) m = true));
    simpl; now rewrite IH.
Qed.

Lemma includes_In (x : Z) (l : list Z) : includes x l = true <-> In x l.
Proof.
  unfold includes. rewrite existsb_exists. split.
  - intros (y & Hy & Heq). apply Z.eqb_eq in Heq. now subst.
  - intros H. exists x. split; [exact H | apply Z.eqb_refl].
Qed.

(** X18. Load, then a run to the end: the completed set the run leaves is the
    identifiers of the messages the load selected, so no identifier that was
    recorded as completed before the load is in it any more. *)
Theorem X18_resumed_run_forgets_earlier_completions
    (st0 st2 : State) res w1 ms w2 :
  fetchUrl "result.json" (world st0) = (inr res, w1) ->
  responseMessages res w1 = (inr ms, w2) ->
  let st1 := snd (loadMessages st0) in
  let before := finishedIDs (progress (session st0)) in
  forLoop (processMessage (messages (ui st1))) 0 (length (messages (ui st1)))
    (snd (runEntry st1)) = (inr tt, st2) ->
  let after := finishedIDs (progress (session (snd (startProcessing st1)))) in
  after
  = map MessageData.id
      (filter (fun m => selectedAtLoad before (includeService (setting (session st0))) m = true)
         ms)
  /\ forall x, In x before -> ~ In x after.
Proof.
  intros Hfetch Hjson st1 before Hloop after.
  destruct (forLoop_prefix (messages (ui st1)) (length (messages (ui st1))) _ _
              (le_n _) Hloop) as (d & _ & Hp & Hf & _).
  destruct (runEntry_facts st1) as (_ & Hp0 & _).
  rewrite take_ge in Hp by lia.
  assert (Hafter : after
            = map MessageData.id
                (filter (fun m => selectedAtLoad before
                                    (includeService (setting (session st0))) m = true) ms)).
  { unfold after. rewrite startProcessing_outcome, Hloop. simpl.
    rewrite Hf, Hp0, Hp. unfold st1. simpl.
    rewrite (loadMessages_loaded st0 res w1 ms w2 Hfetch Hjson), selected_parseMessage.
    reflexivity. }
  split; [exact Hafter|].
  intros x Hbefore Hin. rewrite Hafter in Hin.
  apply in_map_iff in Hin as (m & <- & Hm).
  apply list_elem_of_In, list_elem_of_filter in Hm as [Hsel _].
  unfold selectedAtLoad in Hsel. apply andb_true_iff in Hsel as [Hnot _].
  apply negb_true_iff in Hnot. apply includes_In in Hbefore. congruence.
Qed.

End LoadThenRun.

(** * The further properties on concrete runs *)

Lemma X1_init_adds_the_prefix_witness :
  initWithPrivateKey "abc" (readyState true [] false [])
  = initWithPrivateKey ("0x" +:+ "abc") (readyState true [] false []).
Proof.
  apply X1_init_adds_the_prefix; [discriminate | reflexivity].
Defined.

Lemma X2_init_then_getSignerAddress_witness :
  exists st',
    initWithPrivateKey "0xabc" (readyState true [] false []) = (inr tt, st')
    /\ gContract (vars st') = Some "contract"%string
    /\ characterId (vars st') = 7
    /\ world st' = tt
    /\ getSignerAddress st' = (inr "address-of-0xabc"%string, st').
Proof.
  exact (@X2_init_then_getSignerAddress (scripted true exportOfThree)
           "0xabc" "address-of-0xabc" "contract"%string
           (readyState true [] false []) tt tt tt eq_refl eq_refl eq_refl eq_refl).
Defined.

Lemma X3_checkOperator_owner_or_permission_witness :
  fst (checkOperator (variantState (Some "address"%string) true true)) = inr true
  /\ fst (checkOperator (variantState (Some "someone else"%string) true true)) = inr false.
Proof.
  split.
  - destruct (@X3_checkOperator_owner_or_permission
                (scriptedVariant (Some "address"%string) true true) "contract"%string
                (variantState (Some "address"%string) true true)
                "https://indexer.crossbell.io/v1/characters/7"%string
                (Some "address"%string) tt tt eq_refl eq_refl eq_refl) as (Howner & _).
    apply Howner. exists "address"%string. split; reflexivity.
  - destruct (@X3_checkOperator_owner_or_permission
                (scriptedVariant (Some "someone else"%string) true true) "contract"%string
                (variantState (Some "someone else"%string) true true)
                "https://indexer.crossbell.io/v1/characters/7"%string
                (Some "someone else"%string) tt tt eq_refl eq_refl eq_refl) as (_ & Hother).
    refine (proj1 (Hother _ [] tt eq_refl)).
    intros (o & Ho & Heq). inversion Ho; subst. discriminate.
Defined.

Lemma X4_operators_grant_once_after_connecting_witness :
  trace (snd (addOperator (readyState true [] false [])))
  = [EExternal CNewContract None; EExternal CConnect None;
     EExternal (CGrantPermissions ["POST_NOTE"%string]) None]
  /\ trace (snd (removeOperator (readyState true [] false [])))
     = [EExternal CNewContract None; EExternal CConnect None;
        EExternal (CGrantPermissions []) None].
Proof.
  destruct (X4_operators_grant_once_after_connecting (readyState true [] false []))
    as ((_ & d1 & Ht1 & _ & Hok1) & (_ & d2 & Ht2 & _ & Hok2)).
  split.
  - rewrite Ht1. apply Hok1. reflexivity.
  - rewrite Ht2. apply Hok2. reflexivity.
Defined.

Lemma X5_signerPostNote_stops_at_first_failure_witness :
  fst (contract.signerPostNote (plainMessage 3 "message" (Some "photos/missing.jpg"%string))
         (readyState true [] false []))
  = inl (mkError "Failed to fetch photos/missing.jpg")
  /\ fst (part_000.signerPostNote lostPhotoMessage "channel" (readyState true [] false []))
     = inl (mkError "Failed to fetch photos/missing.jpg").
Proof.
  destruct (X5_signerPostNote_stops_at_first_failure
              (plainMessage 3 "message" (Some "photos/missing.jpg"%string)) "channel"
              (readyState true [] false [])) as ((d & Ht & Hlast) & _).
  destruct (X5_signerPostNote_stops_at_first_failure lostPhotoMessage "channel"
              (readyState true [] false [])) as (_ & (d' & Ht' & Hlast')).
  split.
  - destruct (Hlast [] (EExternal (CFetch "photos/missing.jpg")
                          (Some (mkError "Failed to fetch photos/missing.jpg"))) [])
      as (_ & c & e & Hev & Hr); [| reflexivity |].
    + symmetry. exact Ht.
    + rewrite Hr. inversion Hev. reflexivity.
  - destruct (Hlast' [] (EExternal (CFetch "photos/missing.jpg")
                           (Some (mkError "Failed to fetch photos/missing.jpg"))) [])
      as (_ & c & e & Hev & Hr); [| reflexivity |].
    + symmetry. exact Ht'.
    + rewrite Hr. inversion Hev. reflexivity.
Defined.

Lemma X6_checkOperator_throws_on_failed_lookup_witness :
  fst (checkOperator (variantState None true false)) = inl (mkError "Failed to fetch").
Proof.
  destruct (X6_checkOperator_throws_on_failed_lookup (variantState None true false))
    as (d & Ht & Hlast).
  destruct (Hlast [] (EExternal (CFetch "https://indexer.crossbell.io/v1/characters/7")
                        (Some (mkError "Failed to fetch"))) [])
    as (_ & c & e & Hev & Hr); [| reflexivity |].
  - symmetry. exact Ht.
  - rewrite Hr. inversion Hev. reflexivity.
Defined.

Lemma X7_contract_signerPostNote_transaction_last_witness :
  succeeded (fst (contract.signerPostNote
                    (plainMessage 3 "message" (Some "photos/missing.jpg"%string))
                    (readyState true [] false [])))
  = false.
Proof.
  destruct (X7_contract_signerPostNote_transaction_last
              (plainMessage 3 "message" (Some "photos/missing.jpg"%string))
              (readyState true [] false [])) as (d & Ht & Hstop & _).
  apply Hstop.
  exists (EExternal (CFetch "photos/missing.jpg")
            (Some (mkError "Failed to fetch photos/missing.jpg"))).
  split; [| reflexivity].
  change (trace (readyState true [] false []) ++ d) with d in Ht. rewrite <- Ht.
  vm_compute. left.
Defined.

Lemma X8_invalid_date_fails_after_the_uploads_witness :
  fst (part_000.signerPostNote albumMessage "channel" (variantState None false true))
  = inl (mkError "Invalid time value")
  /\ length (trace (snd (part_000.signerPostNote albumMessage "channel"
                            (variantState None false true))))
     = 6%nat.
Proof.
  destruct (X8_invalid_date_fails_after_the_uploads albumMessage "channel"
              (variantState None false true) (mkError "Invalid time value") eq_refl)
    as (d & Ht & _ & _ & Herr).
  split; [| reflexivity].
  apply Herr; [discriminate|].
  change (trace (variantState None false true) ++ d) with d in Ht. rewrite <- Ht.
  vm_compute. repeat constructor.
Defined.

Lemma X9_note_published_by_the_later_revision_witness :
  exists note,
    EExternal (CUploadJson note) None
    ∈ trace (snd (part_000.signerPostNote albumMessage "channel"
                    (readyState true [] false [])))
    /\ NoteMetadata.content note = "*listen*"
    /\ NoteMetadata.external_urls note = Some ["https://t.me/channel/9"%string]
    /\ length (NoteMetadata.attachments note) = 2%nat.
Proof.
  destruct (X9_note_published_by_the_later_revision albumMessage "channel"
              (readyState true [] false [])
              (snd (part_000.signerPostNote albumMessage "channel"
                      (readyState true [] false []))))
    as (pre & note & uri & Ht & _ & _ & _ & _ & Hcontent & Hurls & _ & Hatts & _).
  { vm_compute. reflexivity. }
  exists note. split; [| split; [| split]].
  - rewrite Ht. apply elem_of_app. right. apply elem_of_app. right. left.
  - rewrite Hcontent. reflexivity.
  - rewrite Hurls. reflexivity.
  - destruct Hatts as (photoRecords & records & -> & Hphotos & Hfile).
    apply Forall2_length in Hphotos. destruct Hfile as (a & -> & _).
    rewrite length_app, <- Hphotos. reflexivity.
Defined.

Lemma X12_toggle_twice_restores_the_list_witness :
  messages (ui (snd (toggleItem 1 (snd (toggleItem 1 loadedThree)))))
  = messages (ui loadedThree).
Proof.
  exact (X12_toggle_twice_restores_the_list loadedThree 1
           (MPM.mk (plainMessage 2 "service" None) false false false) eq_refl).
Defined.

Lemma X13_failed_load_keeps_the_list_witness :
  exists st' d,
    loadMessages (variantState None true false) = (inr tt, st')
    /\ trace st' = trace (variantState None true false) ++ d
    /\ setMessagesCalls d = []
    /\ messages (ui st') = []
    /\ session st' = mkSession (mkProgress [1] []) (mkSetting false)
    /\ errorMessage (ui st') = "Failed to fetch"
    /\ isShowingError (ui st') = true
    /\ isLoading (ui st') = false.
Proof.
  apply (X13_failed_load_keeps_the_list (variantState None true false)
           (mkError "Failed to fetch")).
  left. exists tt. reflexivity.
Defined.

Lemma X14_completed_run_records_the_selected_witness :
  exists st' d,
    startProcessing twoSelected = (inr tt, st')
    /\ trace st' = trace twoSelected ++ d
    /\ last d = Some (ENavigate "/finish")
    /\ publishCalls d = [plainMessage 1 "message" None; plainMessage 4 "message" None]
    /\ finishedIDs (progress (session st')) = [1; 4]
    /\ location (ui st') = "/finish"
    /\ isLoading (ui st') = false
    /\ isShowingError (ui st') = false
    /\ errorMessage (ui st') = "".
Proof.
  apply (X14_completed_run_records_the_selected twoSelected
           (snd (forLoop (processMessage (messages (ui twoSelected))) 0 2
                   (snd (runEntry twoSelected))))).
  vm_compute. reflexivity.
Defined.

Lemma X15_run_with_nothing_selected_witness :
  exists st',
    startProcessing (readyState false [1; 2] false
                       [MPM.mk (plainMessage 2 "service" None) false false false])
    = (inr tt, st')
    /\ trace st' = [] ++ [ESetProgress (mkProgress [] []); ENavigate "/finish"]
    /\ world st' = tt
    /\ vars st'
       = @mkContractVars (scripted false exportOfThree) (Some "contract"%string) "address" 7
    /\ messages (ui st') = [MPM.mk (plainMessage 2 "service" None) false false false]
    /\ finishedIDs (progress (session st')) = []
    /\ location (ui st') = "/finish"
    /\ isLoading (ui st') = false.
Proof.
  apply (X15_run_with_nothing_selected
           (readyState false [1; 2] false
              [MPM.mk (plainMessage 2 "service" None) false false false])).
  constructor; [reflexivity | constructor].
Defined.

Lemma X16_completed_run_shows_only_the_last_as_migrated_witness :
  messages (ui (snd (forLoop (processMessage (messages (ui twoSelected))) 0 2 twoSelected)))
    !! 1%nat
  = Some (MPM.mk (plainMessage 4 "message" None) true false true)
  /\ messages (ui (snd (forLoop (processMessage (messages (ui twoSelected))) 0 2 twoSelected)))
       !! 0%nat
     = Some (MPM.mk (plainMessage 1 "message" None) true false false).
Proof.
  destruct (X16_completed_run_shows_only_the_last_as_migrated
              (messages (ui twoSelected)) twoSelected
              (snd (forLoop (processMessage (messages (ui twoSelected))) 0 2 twoSelected))
              1 (MPM.mk (plainMessage 4 "message" None) true false false))
    as (Hlast & Hothers).
  - vm_compute. reflexivity.
  - reflexivity.
  - reflexivity.
  - intros k w' Hk Hw'. apply lookup_lt_Some in Hw'. simpl in Hw'. lia.
  - split; [exact Hlast|]. rewrite Hothers by discriminate. reflexivity.
Defined.

Lemma X17_run_without_context_empties_the_record_witness :
  exists st',
    startProcessing loadedWithoutContext = (inr tt, st')
    /\ finishedIDs (progress (session loadedWithoutContext)) = [8; 9]
    /\ finishedIDs (progress (session st')) = []
    /\ errorMessage (ui st') = "Contract not initialized."
    /\ isShowingError (ui st') = true.
Proof.
  destruct (X17_run_without_context_empties_the_record loadedWithoutContext 0
              (MPM.mk (plainMessage 1 "message" None) true false false))
    as (st' & Hrun & _ & _ & Hf & He & Hs & _).
  - reflexivity.
  - reflexivity.
  - reflexivity.
  - intros k w' Hk. lia.
  - exists st'. repeat split; assumption.
Defined.

Lemma X18_resumed_run_forgets_earlier_completions_witness :
  finishedIDs (progress (session (snd (startProcessing
                                         (snd (loadMessages (readyState true [3] false []))))))) 
  = [1]
  /\ ~ In 3 (finishedIDs
               (progress (session (snd (startProcessing
                                          (snd (loadMessages (readyState true [3] false [])))))))).
Proof.
  destruct (@X18_resumed_run_forgets_earlier_completions (scripted true exportOfThree)
              (readyState true [3] false [])
              (snd (forLoop
                      (processMessage
                         (messages (ui (snd (loadMessages (readyState true [3] false []))))))
                      0 3
                      (snd (runEntry (snd (loadMessages (readyState true [3] false [])))))))
              "result.json"%string tt exportOfThree tt eq_refl eq_refl)
    as (Hafter & Hforgot).
  - vm_compute. reflexivity.
  - split; [rewrite Hafter; reflexivity|]. apply Hforgot. left. reflexivity.
Defined.
